(** * LangChain compatibility adapter: history codec and synchronous bridge

    A shallow embedding of
    [examples/slack-bot/src/agents/langchain_compatibility_adapter.py]
    (class [LangChainCompatibilityAdapter]) and the properties of its
    history codec, its lazy initialisation, its per-question protocol and
    its read-only accessors. *)

From stdpp Require Import gmap strings list fin_maps.

Open Scope string_scope.
Set Warnings "-register-all".

(** ** Python values and exceptions *)

(** The values that travel through the adapter's dictionaries
    ([Dict[str, Any]]): JSON-like data.  Dictionaries are finite maps with
    string keys; equality of dictionaries is by content, as in Python. *)
Inductive pyval : Type :=
  | PNone
  | PBool (b : bool)
  | PInt (z : Z)
  | PStr (s : string)
  | PList (l : list pyval)
  | PDict (d : gmap string pyval).

(** The exception classes the adapter tells apart ([except RuntimeError] in
    [_setup_agent_if_needed]); every exception of the model is an instance
    of Python's [Exception]. *)
Inductive exn_class : Type :=
  | RuntimeError
  | TimeoutError
  | AttributeError
  | OtherException.

(** An exception with the text [str(e)] gives for it. *)
Record exn : Type := Exn { exn_kind : exn_class; exn_str : string }.

(** A computation that returns a value or raises. *)
Inductive result (A : Type) : Type :=
  | Ok (a : A)
  | Raise (e : exn).
Arguments Ok {A} a.
Arguments Raise {A} e.

(** Sequencing: an exception raised by the first computation skips the
    rest.  The notation [x ← r; k] is stdpp's, through [MBind]. *)
#[export] Instance result_ret : MRet result := fun A a => Ok a.
#[export] Instance result_bind : MBind result := fun A B k r =>
  match r with
  | Ok a => k a
  | Raise e => Raise e
  end.

(** [type(v).__name__], as it appears in the text of an [AttributeError]. *)
Definition type_name (v : pyval) : string :=
  match v with
  | PNone => "NoneType"
  | PBool _ => "bool"
  | PInt _ => "int"
  | PStr _ => "str"
  | PList _ => "list"
  | PDict _ => "dict"
  end.

(** [d.get(k, dflt)] on a dictionary that is known to be one. *)
Definition dict_get (d : gmap string pyval) (k : string) (dflt : pyval) : pyval :=
  default dflt (d !! k).

(** [v.get(k, dflt)] on an arbitrary value: only dictionaries have [get]. *)
Definition py_get (v : pyval) (k : string) (dflt : pyval) : result pyval :=
  match v with
  | PDict d => Ok (dict_get d k dflt)
  | _ => Raise (Exn AttributeError
                  ("'" ++ type_name v ++ "' object has no attribute 'get'"))
  end.

(** [v == s] for a string literal [s]. *)
Definition py_eq_str (v : pyval) (s : string) : bool :=
  match v with
  | PStr s' => String.eqb s' s
  | _ => false
  end.

(** ** Message records *)

(** Modelled from the spec: the record classes [BaseMessage],
    [HumanMessage] and [AIMessage] are imported from [langchain.schema] and
    are not part of the sources.  A Message Record has a variant, its
    content and a side-metadata value; the constructors store what they are
    given, and [additional_kwargs] defaults to the empty dictionary. *)
Inductive message_type : Type :=
  | human
  | ai
  | other_message.

Record BaseMessage : Type := Message {
  msg_type : message_type;
  content : pyval;
  additional_kwargs : pyval
}.

Definition HumanMessage (content : pyval) : BaseMessage :=
  Message human content (PDict ∅).

Definition AIMessage (content additional_kwargs : pyval) : BaseMessage :=
  Message ai content additional_kwargs.

(** ** History codec *)

(** The role tag chosen by the [isinstance] cascade of
    [_serialize_history]. *)
Definition role_of (msg : BaseMessage) : string :=
  match msg_type msg with
  | human => "user"
  | ai => "assistant"
  | other_message => "system"
  end.

(** One pass of the loop body of [_serialize_history]: the entry appended
    for [msg]. *)
Definition serialize_entry (msg : BaseMessage) : gmap string pyval :=
  let role := role_of msg in
  let content : gmap string pyval :=
    {[ "content" := content msg;
       "additional_kwargs" := additional_kwargs msg ]} in
  {[ "role" := PStr role; "content" := PDict content ]}.

Fixpoint serialize_loop (messages : list BaseMessage)
    (serialized : list (gmap string pyval)) : list (gmap string pyval) :=
  match messages with
  | [] => serialized
  | msg :: rest => serialize_loop rest (serialized ++ [serialize_entry msg])
  end.

Definition _serialize_history (messages : list BaseMessage)
    : list (gmap string pyval) :=
  serialize_loop messages [].

(** The loop of [_deserialize_history].  [content_data.get] is evaluated for
    every entry, before the role is looked at. *)
Fixpoint deserialize_loop (history : list (gmap string pyval))
    (deserialized : list BaseMessage) : result (list BaseMessage) :=
  match history with
  | [] => Ok deserialized
  | msg :: rest =>
      let role := dict_get msg "role" PNone in
      let content_data := dict_get msg "content" (PDict ∅) in
      content ← py_get content_data "content" (PStr "");
      kwargs ← py_get content_data "additional_kwargs" (PDict ∅);
      if py_eq_str role "user" then
        deserialize_loop rest (deserialized ++ [HumanMessage content])
      else if py_eq_str role "assistant" then
        deserialize_loop rest (deserialized ++ [AIMessage content kwargs])
      else
        deserialize_loop rest deserialized
  end.

Definition _deserialize_history (history : list (gmap string pyval))
    : result (list BaseMessage) :=
  deserialize_loop history [].

(** ** Collaborators and the world around the adapter *)

(** What driving a coroutine to completion with [run_until_complete]
    observes: the coroutine finishes after [t] time units, with a value or
    an exception, or it never finishes. *)
Inductive coro (A : Type) : Type :=
  | Done (t : nat) (r : result A)
  | Forever.
Arguments Done {A} t r.
Arguments Forever {A}.

(** What a caller observes of a call: it returns, it raises, or it never
    comes back. *)
Inductive outcome (A : Type) : Type :=
  | Returns (a : A)
  | Raises (e : exn)
  | Hangs.
Arguments Returns {A} a.
Arguments Raises {A} e.
Arguments Hangs {A}.

(** A tool of the agent: its [name] and [description] attributes and its
    synchronous [run]. *)
Record BaseTool : Type := Tool {
  name : string;
  description : string;
  run : gmap string pyval -> result pyval
}.

(** The process state the adapter reads and writes outside its own
    fields.  [running_loop] and [current_loop] belong to the thread that
    executes ([asyncio.get_running_loop], [asyncio.set_event_loop]); the
    other fields count what has been created and closed so far.  Event
    loops are named by their creation number. *)
Record world : Type := World {
  running_loop : bool;
  current_loop : option nat;
  loops_created : nat;
  loops_closed : list nat;
  agents_created : nat
}.

Section Adapter.

(** The agent handle is opaque; [Agent] is the type of its states. *)
Context {Agent : Type}.

(** The operations the adapter consumes from [malloy_langchain_agent] and
    from the Python library.  The agent keeps its conversation in its own
    state: an awaited operation that succeeds yields the agent as the call
    leaves it; one that raises leaves the agent as it was. *)
Record collaborators : Type := Collaborators {
  create_malloy_agent : gmap string pyval -> coro Agent;
  agent_setup : Agent -> coro Agent;
  agent_process_question :
    Agent -> string -> coro (Agent * (bool * string * pyval));
  agent_get_conversation_history : Agent -> result (list BaseMessage);
  agent_tools : Agent -> list BaseTool;
  agent_get_agent_info : Agent -> result (gmap string pyval);
  json_dumps_indent2 : pyval -> result string;
  py_str : pyval -> string
}.

Variable C : collaborators.

(** The fields of a [LangChainCompatibilityAdapter] instance.  An agent
    object and an event loop are truthy, so the tests [not self.agent] and
    [self.agent is None] of the source agree: both are [agent = None]. *)
Record LangChainCompatibilityAdapter : Type := Adapter {
  agent_kwargs : gmap string pyval;
  agent : option Agent;
  loop : option nat
}.

(** [__init__]: the configuration is stored, nothing is constructed. *)
Definition __init__ (kwargs : gmap string pyval)
    : LangChainCompatibilityAdapter :=
  Adapter kwargs None None.

Record state : Type := State {
  self : LangChainCompatibilityAdapter;
  env : world
}.

(** *** The monad of the adapter's methods

    A method reads and writes the adapter and the world, takes time, and
    returns, raises or hangs. *)
Definition M (A : Type) : Type := state -> outcome A * nat * state.

Definition m_ret {A : Type} (a : A) : M A := fun s => (Returns a, 0, s).

Definition m_bind {A B : Type} (m : M A) (k : A -> M B) : M B := fun s =>
  match m s with
  | (Returns a, t, s') =>
      match k a s' with
      | (o, t', s'') => (o, t + t', s'')
      end
  | (Raises e, t, s') => (Raises e, t, s')
  | (Hangs, t, s') => (Hangs, t, s')
  end.

Definition raise {A : Type} (e : exn) : M A := fun s => (Raises e, 0, s).

Definition lift {A : Type} (r : result A) : M A :=
  match r with
  | Ok a => m_ret a
  | Raise e => raise e
  end.

(** [try: body except Exception as e: handler e]. *)
Definition try_except {A : Type} (body : M A) (handler : exn -> M A) : M A :=
  fun s =>
    match body s with
    | (Raises e, t, s') =>
        match handler e s' with
        | (o, t', s'') => (o, t + t', s'')
        end
    | r => r
    end.

Definition get_self : M LangChainCompatibilityAdapter :=
  fun s => (Returns (self s), 0, s).

Definition set_agent (a : Agent) : M unit := fun s =>
  (Returns tt, 0,
   State (Adapter (agent_kwargs (self s)) (Some a) (loop (self s))) (env s)).

Definition set_loop (l : nat) : M unit := fun s =>
  (Returns tt, 0,
   State (Adapter (agent_kwargs (self s)) (agent (self s)) (Some l)) (env s)).

#[export] Instance M_ret : MRet M := @m_ret.
#[export] Instance M_bind : MBind M := fun A B k m => m_bind m k.

(** [except RuntimeError: handler]: other exceptions pass through. *)
Definition try_except_RuntimeError {A : Type} (body handler : M A) : M A :=
  try_except body (fun e =>
    match exn_kind e with
    | RuntimeError => handler
    | _ => raise e
    end).

(** *** Primitives of [asyncio] and [concurrent.futures] *)

(** [asyncio.get_running_loop()]: raises [RuntimeError] when no loop runs
    on the executing thread. *)
Definition get_running_loop : M unit := fun s =>
  if running_loop (env s) then (Returns tt, 0, s)
  else (Raises (Exn RuntimeError "no running event loop"), 0, s).

(** [asyncio.new_event_loop()]. *)
Definition new_event_loop : M nat := fun s =>
  let w := env s in
  (Returns (loops_created w), 0,
   State (self s)
     (World (running_loop w) (current_loop w) (S (loops_created w))
        (loops_closed w) (agents_created w))).

(** [asyncio.set_event_loop(l)]. *)
Definition set_event_loop (l : nat) : M unit := fun s =>
  let w := env s in
  (Returns tt, 0,
   State (self s)
     (World (running_loop w) (Some l) (loops_created w) (loops_closed w)
        (agents_created w))).

(** [l.close()]. *)
Definition close (l : nat) : M unit := fun s =>
  let w := env s in
  (Returns tt, 0,
   State (self s)
     (World (running_loop w) (current_loop w) (loops_created w)
        (l :: loops_closed w) (agents_created w))).

(** [l.run_until_complete(c)]: refused with [RuntimeError] while another
    loop runs on the executing thread; otherwise the thread is blocked
    until the coroutine finishes. *)
Definition run_until_complete {A : Type} (c : coro A) : M A := fun s =>
  if running_loop (env s) then
    (Raises (Exn RuntimeError
               "Cannot run the event loop while another loop is running"),
     0, s)
  else
    match c with
    | Done t (Ok a) => (Returns a, t, s)
    | Done t (Raise e) => (Raises e, t, s)
    | Forever => (Hangs, 0, s)
    end.

(** [with ThreadPoolExecutor(max_workers=1) as executor:] followed by
    [executor.submit(body)] and [future.result(timeout=timeout)].  The body
    runs on a fresh thread, which has no running loop and no current loop
    of its own.  When the body is not finished by [timeout] the wait raises
    [TimeoutError] (whose [str] is empty), and leaving the [with] block
    calls [shutdown(wait=True)], which joins the worker thread: the caller
    continues only once the worker has finished. *)
Definition in_worker_thread {A : Type} (timeout : nat) (body : M A) : M A :=
  fun s =>
    let w := env s in
    let inside :=
      State (self s)
        (World false None (loops_created w) (loops_closed w)
           (agents_created w)) in
    match body inside with
    | (o, t, s') =>
        let w' := env s' in
        let back :=
          State (self s')
            (World (running_loop w) (current_loop w) (loops_created w')
               (loops_closed w') (agents_created w')) in
        match o with
        | Hangs => (Hangs, t, back)
        | _ =>
            if Nat.leb t timeout then (o, t, back)
            else (Raises (Exn TimeoutError ""), t, back)
        end
    end.

(** *** Lazy initialisation *)

(** Bookkeeping: one more agent has been constructed. *)
Definition count_agent : M unit := fun s =>
  let w := env s in
  (Returns tt, 0,
   State (self s)
     (World (running_loop w) (current_loop w) (loops_created w)
        (loops_closed w) (S (agents_created w)))).

(** [create_malloy_agent(kwargs)] driven to completion; a constructed agent
    is counted. *)
Definition construct_agent (kwargs : gmap string pyval) : M Agent :=
  a ← run_until_complete (create_malloy_agent C kwargs);
  count_agent;;
  mret a.

(** The local function [setup_in_thread] of [_setup_agent_if_needed]. *)
Definition setup_in_thread : M (Agent * nat) :=
  self ← get_self;
  new_loop ← new_event_loop;
  set_event_loop new_loop;;
  try_except
    (a ← construct_agent (agent_kwargs self);
     a' ← run_until_complete (agent_setup C a);
     mret (a', new_loop))
    (fun e => close new_loop;; raise e).

Definition _setup_agent_if_needed : M unit :=
  self ← get_self;
  match agent self with
  | Some _ => mret tt
  | None =>
      try_except_RuntimeError
        (get_running_loop;;
         '(a, l) ← in_worker_thread 60 setup_in_thread;
         set_agent a;;
         set_loop l)
        (l ← new_event_loop;
         set_loop l;;
         set_event_loop l;;
         a ← construct_agent (agent_kwargs self);
         set_agent a;;
         a' ← run_until_complete (agent_setup C a);
         set_agent a')
  end.

(** *** Answering a question *)

Definition _run_question_in_new_loop (question : string)
    (history : option (list (gmap string pyval)))
    : M (bool * string * list BaseMessage) :=
  self ← get_self;
  match agent self, loop self with
  | Some a, Some l =>
      set_event_loop l;;
      try_except
        ('(a', (success, response, _)) ←
           run_until_complete (agent_process_question C a question);
         set_agent a';;
         final_history_obj ← lift (agent_get_conversation_history C a');
         mret (success, response, final_history_obj))
        (fun e => raise e)
  | _, _ =>
      raise (Exn RuntimeError
               "Adapter not initialized. Call _setup_agent_if_needed first.")
  end.

Definition process_user_question (user_question : string)
    (history : option (list (gmap string pyval)))
    : M (bool * string * list (gmap string pyval)) :=
  try_except
    (_setup_agent_if_needed;;
     '(success, response, final_history_obj) ←
        in_worker_thread 300
          (_run_question_in_new_loop user_question history);
     let final_history := _serialize_history final_history_obj in
     mret (success, response, final_history))
    (fun e =>
       let error_msg := "Error in LangChain processing: " ++ exn_str e in
       mret (false, error_msg, [])).

(** *** Read-only accessors *)

(** The lookup loop of [call_tool]: the first tool whose name is
    [tool_name]. *)
Fixpoint find_tool (tools : list BaseTool) (tool_name : string)
    : option BaseTool :=
  match tools with
  | [] => None
  | t :: rest =>
      if String.eqb (name t) tool_name then Some t
      else find_tool rest tool_name
  end.

(** [try: body except Exception as e: handler e] for a computation without
    effects on the adapter. *)
Definition catch {A : Type} (body : result A) (handler : exn -> result A)
    : result A :=
  match body with
  | Ok a => Ok a
  | Raise e => handler e
  end.

Definition call_tool (self : LangChainCompatibilityAdapter)
    (tool_name : string) (kwargs : gmap string pyval) : result string :=
  match agent self with
  | None => Ok "Error: LangChain agent not initialized"
  | Some a =>
      catch
        (match find_tool (agent_tools C a) tool_name with
         | None => Ok ("Error: Tool '" ++ tool_name ++ "' not found")
         | Some tool =>
             result ← run tool kwargs;
             match result with
             | PDict _ => json_dumps_indent2 C result
             | _ => Ok (py_str C result)
             end
         end)
        (fun e =>
           Ok ("Error calling tool " ++ tool_name ++ ": " ++ exn_str e))
  end.

(** The dictionary literal [base_info] of [get_agent_info]. *)
Definition base_info (self : LangChainCompatibilityAdapter)
    : gmap string pyval :=
  {[ "adapter_type" := PStr "LangChain";
     "llm_provider" :=
       dict_get (agent_kwargs self) "llm_provider" (PStr "unknown");
     "llm_model" := dict_get (agent_kwargs self) "llm_model" (PStr "unknown");
     "mcp_url" := dict_get (agent_kwargs self) "mcp_url" (PStr "unknown");
     "setup_complete" := PBool (bool_decide (is_Some (agent self)));
     "vertex_project_id" :=
       dict_get (agent_kwargs self) "vertex_project_id" PNone;
     "vertex_location" :=
       dict_get (agent_kwargs self) "vertex_location" PNone ]}.

(** [d.update(other)]: the keys of [other] win. *)
Definition dict_update (d other : gmap string pyval) : gmap string pyval :=
  other ∪ d.

Definition get_agent_info (self : LangChainCompatibilityAdapter)
    : gmap string pyval :=
  let base_info := base_info self in
  match agent self with
  | Some a =>
      match agent_get_agent_info C a with
      | Ok langchain_info => dict_update base_info langchain_info
      | Raise e => <[ "error" := PStr (exn_str e) ]> base_info
      end
  | None => base_info
  end.

End Adapter.

Arguments collaborators Agent : clear implicits.
Arguments LangChainCompatibilityAdapter Agent : clear implicits.
Arguments state Agent : clear implicits.

(** ** A concrete agent

    An agent whose state is its conversation so far; it is used to run the
    adapter on concrete inputs.  [answer] is what awaiting
    [process_question] observes for a question. *)
Definition echo_process_question (answer : string -> coro string)
    (a : list BaseMessage) (question : string)
    : coro (list BaseMessage * (bool * string * pyval)) :=
  match answer question with
  | Done t (Ok text) =>
      Done t (Ok ((a ++ [HumanMessage (PStr question);
                         AIMessage (PStr text) (PDict ∅)])%list,
                  (true, text, PNone)))
  | Done t (Raise e) => Done t (Raise e)
  | Forever => Forever
  end.

Definition ping_tool : BaseTool :=
  Tool "ping" "Answers pong" (fun _ => Ok (PStr "pong")).

Definition echo_agent (answer : string -> coro string)
    (info : result (gmap string pyval))
    : collaborators (list BaseMessage) :=
  {| create_malloy_agent := fun _ => Done 1 (Ok []);
     agent_setup := fun a => Done 1 (Ok a);
     agent_process_question := echo_process_question answer;
     agent_get_conversation_history := fun a => Ok a;
     agent_tools := fun _ => [ping_tool];
     agent_get_agent_info := fun _ => info;
     json_dumps_indent2 := fun _ => Ok "{}";
     py_str := fun v => match v with PStr s => s | _ => "?" end |}.

(** An agent that answers every question after two time units. *)
Definition prompt_agent : collaborators (list BaseMessage) :=
  echo_agent (fun q => Done 2 (Ok ("echo: " ++ q)))
    (Ok {[ "adapter_type" := PStr "MalloyLangChainAgent" ]}).

(** An agent whose answer never arrives. *)
Definition silent_agent : collaborators (list BaseMessage) :=
  echo_agent (fun _ => Forever) (Ok ∅).

(** The world of a caller with no event loop running, before anything has
    been created. *)
Definition quiet_world : world := World false None 0 [] 0.

Definition fresh (kwargs : gmap string pyval)
    : state (list BaseMessage) :=
  State (__init__ kwargs) quiet_world.

(** [call_n m n]: the method [m] called [n] times in a row. *)
Fixpoint call_n {Agent A : Type} (m : @M Agent A) (n : nat) : @M Agent unit :=
  match n with
  | 0 => mret tt
  | S n' => m;; call_n m n'
  end.

(** ** Shapes of encoded entries *)

(** The entry's ["content"] is absent or is a mapping, as in every entry
    that [_serialize_history] produces. *)
Definition mapping_content (e : gmap string pyval) : Prop :=
  match e !! "content" with
  | None | Some (PDict _) => True
  | Some _ => False
  end.

(** The roles for which [_deserialize_history] builds a record. *)
Definition decoded_role (e : gmap string pyval) : bool :=
  py_eq_str (dict_get e "role" PNone) "user"
  || py_eq_str (dict_get e "role" PNone) "assistant".

(** A value of the entry's nested mapping, when it is there, is a text. *)
Definition absent_or_text (o : option pyval) : Prop :=
  match o with
  | None | Some (PStr _) => True
  | Some _ => False
  end.

(** A value of the entry's nested mapping, when it is there, is a
    mapping. *)
Definition absent_or_mapping (o : option pyval) : Prop :=
  match o with
  | None | Some (PDict _) => True
  | Some _ => False
  end.

(** An entry of an encoded history: its ["content"] is absent or a
    mapping, and what the decoder would hand to a record constructor is of
    the constructor's type: the nested ["content"] a text for the roles it
    decodes, the nested ["additional_kwargs"] a mapping for the assistant
    role.  The role itself and the presence of the keys are free. *)
Definition encoded_entry (e : gmap string pyval) : Prop :=
  match e !! "content" with
  | None => True
  | Some (PDict d) =>
      (decoded_role e = true -> absent_or_text (d !! "content"))
      /\ (py_eq_str (dict_get e "role" PNone) "assistant" = true ->
          absent_or_mapping (d !! "additional_kwargs"))
  | Some _ => False
  end.

(** What a round trip through the codec leaves of a record: a user
    record keeps its content only, an assistant record is kept whole, any
    other record disappears. *)
Definition decoded_back (m : BaseMessage) : option BaseMessage :=
  match msg_type m with
  | human => Some (HumanMessage (content m))
  | ai => Some (AIMessage (content m) (additional_kwargs m))
  | other_message => None
  end.

(** The records that a round trip gives back unchanged: assistant records,
    and user records whose metadata is the empty dictionary. *)
Definition roundtrip_stable (m : BaseMessage) : Prop :=
  msg_type m = ai \/ (msg_type m = human /\ additional_kwargs m = PDict ∅).

(** ** Tool listing and the pass-through methods *)

Section Passthrough.

Context {Agent Client : Type}.

Variable C : collaborators Agent.

(** The further attributes and methods of the agent and of its tools that
    the remaining methods of the adapter use.  [tool_args_schema t] is
    [None] when [t] has no [args_schema] attribute or a false one, and
    otherwise what [t.args_schema.schema()] does: it returns a dictionary
    or raises.  The two conversation methods yield the agent as the call
    leaves it.  [agent_mcp_client a] is the attribute [mcp_client] of the
    agent, which may hold [None]. *)
Record tool_collaborators : Type := ToolCollaborators {
  tool_args_schema : BaseTool -> option (result (gmap string pyval));
  agent_clear_conversation : Agent -> result Agent;
  agent_save_conversation : Agent -> string -> result Agent;
  agent_mcp_client : Agent -> option Client
}.

Variable T : tool_collaborators.

(** The ["parameters"] dictionary of a tool descriptor: the empty schema,
    with ["properties"] and ["required"] overwritten by those of the
    tool's schema when it has them. *)
Definition tool_parameters (tool : BaseTool) : result (gmap string pyval) :=
  let parameters : gmap string pyval :=
    {[ "type" := PStr "object";
       "properties" := PDict ∅;
       "required" := PList [] ]} in
  match tool_args_schema T tool with
  | Some get_schema =>
      schema ← get_schema;
      let parameters :=
        match schema !! "properties" with
        | Some v => <[ "properties" := v ]> parameters
        | None => parameters
        end in
      let parameters :=
        match schema !! "required" with
        | Some v => <[ "required" := v ]> parameters
        | None => parameters
        end in
      Ok parameters
  | None => Ok parameters
  end.

(** [d] is the descriptor of [tool]: its name, its description and its
    parameters dictionary, and nothing else. *)
Definition describes (tool : BaseTool) (d : gmap string pyval) : Prop :=
  d !! "name" = Some (PStr (name tool))
  /\ d !! "description" = Some (PStr (description tool))
  /\ (exists p, tool_parameters tool = Ok p
                /\ d !! "parameters" = Some (PDict p))
  /\ dom d = {[ "name"; "description"; "parameters" ]}.

(** The loop of [get_available_tools]. *)
Fixpoint tools_loop (tools : list BaseTool)
    (openai_tools : list (gmap string pyval))
    : result (list (gmap string pyval)) :=
  match tools with
  | [] => Ok openai_tools
  | tool :: rest =>
      parameters ← tool_parameters tool;
      let tool_schema : gmap string pyval :=
        {[ "name" := PStr (name tool);
           "description" := PStr (description tool);
           "parameters" := PDict parameters ]} in
      tools_loop rest (openai_tools ++ [tool_schema])
  end.

Definition get_available_tools (self : LangChainCompatibilityAdapter Agent)
    : list (gmap string pyval) :=
  match agent self with
  | None => []
  | Some a =>
      match tools_loop (agent_tools C a) [] with
      | Ok openai_tools => openai_tools
      | Raise _ => []
      end
  end.

(** [clear_conversation]: the adapter after the call.  A failure of the
    agent is printed and swallowed. *)
Definition clear_conversation (self : LangChainCompatibilityAdapter Agent)
    : result (LangChainCompatibilityAdapter Agent) :=
  match agent self with
  | Some a =>
      catch
        (a' ← agent_clear_conversation T a;
         Ok (Adapter (agent_kwargs self) (Some a') (loop self)))
        (fun _ => Ok self)
  | None => Ok self
  end.

Definition save_conversation (self : LangChainCompatibilityAdapter Agent)
    (filepath : string) : result (LangChainCompatibilityAdapter Agent) :=
  match agent self with
  | Some a =>
      catch
        (a' ← agent_save_conversation T a filepath;
         Ok (Adapter (agent_kwargs self) (Some a') (loop self)))
        (fun _ => Ok self)
  | None => Ok self
  end.

(** The property [mcp_client]: the attribute of the agent as it is, or
    [None] without an agent. *)
Definition mcp_client (self : LangChainCompatibilityAdapter Agent)
    : option Client :=
  match agent self with
  | Some a => agent_mcp_client T a
  | None => None
  end.

End Passthrough.

Arguments tool_collaborators Agent Client : clear implicits.

(** ** More concrete collaborators *)

(** An agent with a given construction, set-up and tool list; it answers
    like [prompt_agent]. *)
Definition scripted_agent (create : coro (list BaseMessage))
    (setup : coro unit) (tools : list BaseTool)
    : collaborators (list BaseMessage) :=
  {| create_malloy_agent := fun _ => create;
     agent_setup := fun a =>
       match setup with
       | Done t (Ok _) => Done t (Ok a)
       | Done t (Raise e) => Done t (Raise e)
       | Forever => Forever
       end;
     agent_process_question :=
       echo_process_question (fun q => Done 2 (Ok ("echo: " ++ q)));
     agent_get_conversation_history := fun a => Ok a;
     agent_tools := fun _ => tools;
     agent_get_agent_info := fun _ => Ok ∅;
     json_dumps_indent2 := fun _ => Ok "{}";
     py_str := fun v => match v with PStr s => s | _ => "?" end |}.

Definition broken : exn := Exn OtherException "connection refused".

(** The world of a caller that is itself inside a running event loop. *)
Definition busy_world : world := World true None 0 [] 0.

(** An adapter that a first question has initialised. *)
Definition ready : state (list BaseMessage) :=
  State (Adapter ∅ (Some []) (Some 0)) (World false (Some 0) 1 [] 1).

Definition pong_tool : BaseTool :=
  Tool "ping" "Answers pong, later" (fun _ => Ok (PStr "late pong")).

Definition failing_tool : BaseTool :=
  Tool "boom" "Always fails" (fun _ => Raise broken).

(** Tool attributes: [ping] declares a schema with one required property,
    [boom] one whose [schema()] raises, any other tool none. *)
Definition sample_tools : tool_collaborators (list BaseMessage) unit :=
  {| tool_args_schema := fun t =>
       if String.eqb (name t) "ping" then
         Some (Ok {[ "properties" := PDict {[ "host" := PStr "string" ]};
                     "required" := PList [PStr "host"];
                     "title" := PStr "PingArgs" ]})
       else if String.eqb (name t) "boom" then Some (Raise broken)
       else None;
     agent_clear_conversation := fun _ => Ok [];
     agent_save_conversation := fun _ _ => Raise broken;
     agent_mcp_client := fun _ => Some tt |}.

(** * Properties *)

(** ** The history codec *)

Lemma serialize_loop_app (messages : list BaseMessage) serialized :
  serialize_loop messages serialized
  = (serialized ++ map serialize_entry messages)%list.
Proof.
  revert serialized.
  induction messages as [|msg rest IH]; intros acc; simpl.
  - by rewrite app_nil_r.
  - rewrite IH. by rewrite <- app_assoc.
Qed.

Lemma serialize_entry_role msg :
  dict_get (serialize_entry msg) "role" PNone = PStr (role_of msg).
Proof. unfold dict_get, serialize_entry. by simplify_map_eq. Qed.

Lemma serialize_entry_content msg :
  serialize_entry msg !! "content"
  = Some (PDict {[ "content" := content msg;
                   "additional_kwargs" := additional_kwargs msg ]}).
Proof. unfold serialize_entry. by simplify_map_eq. Qed.

(** One step of the decoding loop on an entry whose content is a mapping
    (or absent, with [d] empty). *)
Lemma deserialize_loop_step e d rest acc :
  dict_get e "content" (PDict ∅) = PDict d ->
  deserialize_loop (e :: rest) acc
  = if py_eq_str (dict_get e "role" PNone) "user" then
      deserialize_loop rest
        (acc ++ [HumanMessage (dict_get d "content" (PStr ""))])%list
    else if py_eq_str (dict_get e "role" PNone) "assistant" then
      deserialize_loop rest
        (acc ++ [AIMessage (dict_get d "content" (PStr ""))
                   (dict_get d "additional_kwargs" (PDict ∅))])%list
    else deserialize_loop rest acc.
Proof. intros Hd. simpl. rewrite Hd. reflexivity. Qed.

Lemma mapping_content_get e :
  mapping_content e -> exists d, dict_get e "content" (PDict ∅) = PDict d.
Proof.
  unfold mapping_content, dict_get.
  destruct (e !! "content") as [[]|]; simpl; intros H; try done; eauto.
Qed.

(** An entry whose content is not a mapping makes the decoder raise,
    whatever its role. *)
Lemma deserialize_loop_not_mapping e rest acc :
  (forall d, dict_get e "content" (PDict ∅) <> PDict d) ->
  exists err, deserialize_loop (e :: rest) acc = Raise err
              /\ exn_kind err = AttributeError.
Proof.
  intros Hd. simpl.
  destruct (dict_get e "content" (PDict ∅)) eqn:E; simpl; eauto.
  by destruct (Hd d).
Qed.

Lemma deserialize_loop_assistants (messages : list BaseMessage) acc :
  Forall (fun m => msg_type m = ai) messages ->
  deserialize_loop (map serialize_entry messages) acc
  = Ok (acc ++ messages)%list.
Proof.
  intros H. revert acc.
  induction H as [|m rest Hm _ IH]; intros acc.
  - simpl. by rewrite app_nil_r.
  - rewrite map_cons.
    erewrite deserialize_loop_step;
      [|unfold dict_get; by rewrite serialize_entry_content].
    rewrite serialize_entry_role. unfold role_of. rewrite Hm. simpl.
    rewrite IH. unfold dict_get. simplify_map_eq.
    destruct m as [ty c kw]. simpl in *. subst ty.
    unfold AIMessage. by rewrite <- app_assoc.
Qed.

(** A whole conversation of assistant records survives the round trip. *)
Lemma roundtrip_assistants (messages : list BaseMessage) :
  Forall (fun m => msg_type m = ai) messages ->
  _deserialize_history (_serialize_history messages) = Ok messages.
Proof.
  intros H. unfold _deserialize_history, _serialize_history.
  rewrite serialize_loop_app, app_nil_l.
  by rewrite deserialize_loop_assistants.
Qed.

(** C3: decoding the encoding of a single assistant record gives that
    record back: [_deserialize_history (_serialize_history [M]) = [M]] for
    every record [M] of the assistant variant. *)
Theorem roundtrip_assistant (M : BaseMessage) :
  msg_type M = ai ->
  _deserialize_history (_serialize_history [M]) = Ok [M].
Proof.
  intros HM. unfold _deserialize_history, _serialize_history.
  rewrite serialize_loop_app, app_nil_l.
  rewrite deserialize_loop_assistants; [done|].
  by constructor.
Qed.

Lemma roundtrip_assistant_witness :
  msg_type (AIMessage (PStr "4") (PDict {[ "tool" := PStr "calc" ]})) = ai
  /\ _deserialize_history
       (_serialize_history
          [AIMessage (PStr "4") (PDict {[ "tool" := PStr "calc" ]})])
     = Ok [AIMessage (PStr "4") (PDict {[ "tool" := PStr "calc" ]})].
Proof.
  split; [reflexivity|].
  apply (roundtrip_assistant
           (AIMessage (PStr "4") (PDict {[ "tool" := PStr "calc" ]}))).
  reflexivity.
Defined.

(** On entries whose content is a mapping or absent the decoder succeeds,
    appends one record per entry with a decoded role, and is blind to the
    other entries. *)
Lemma deserialize_loop_filter (history : list (gmap string pyval)) :
  Forall mapping_content history ->
  exists out,
    length out = length (List.filter decoded_role history)
    /\ forall acc,
         deserialize_loop history acc = Ok (acc ++ out)%list
         /\ deserialize_loop (List.filter decoded_role history) acc
            = Ok (acc ++ out)%list.
Proof.
  induction 1 as [|e rest He _ [out [Hlen IH]]].
  - exists []. split; [done|]. intros acc. simpl. by rewrite app_nil_r.
  - destruct (mapping_content_get e He) as [d Hd].
    simpl List.filter.
    destruct (py_eq_str (dict_get e "role" PNone) "user") eqn:Eu;
      [|destruct (py_eq_str (dict_get e "role" PNone) "assistant") eqn:Ea].
    + assert (Hk : decoded_role e = true)
        by (unfold decoded_role; by rewrite Eu).
      rewrite Hk.
      exists (HumanMessage (dict_get d "content" (PStr "")) :: out).
      split; [simpl; by rewrite Hlen|].
      intros acc. rewrite !(deserialize_loop_step e d) by done.
      rewrite Eu.
      generalize (IH (acc ++ [HumanMessage
        (dict_get d "content" (PStr ""))])%list).
      by rewrite <- !app_assoc.
    + assert (Hk : decoded_role e = true)
        by (unfold decoded_role; by rewrite Eu, Ea).
      rewrite Hk.
      exists (AIMessage (dict_get d "content" (PStr ""))
                (dict_get d "additional_kwargs" (PDict ∅)) :: out).
      split; [simpl; by rewrite Hlen|].
      intros acc. rewrite !(deserialize_loop_step e d) by done.
      rewrite Eu, Ea.
      generalize (IH (acc ++ [AIMessage
        (dict_get d "content" (PStr ""))
        (dict_get d "additional_kwargs" (PDict ∅))])%list).
      by rewrite <- !app_assoc.
    + assert (Hk : decoded_role e = false)
        by (unfold decoded_role; by rewrite Eu, Ea).
      rewrite Hk.
      exists out. split; [done|].
      intros acc. rewrite (deserialize_loop_step e d) by done.
      rewrite Eu, Ea. apply IH.
Qed.

Lemma encoded_entry_mapping (e : gmap string pyval) :
  encoded_entry e -> mapping_content e.
Proof.
  unfold encoded_entry, mapping_content.
  by destruct (e !! "content") as [[]|].
Qed.

(** C4: on every encoded-history list decoding succeeds and drops exactly
    the entries whose role is neither ["user"] nor ["assistant"]: the
    output is that of the list without them, it has one record per
    remaining entry, so it is no longer than the input; a single entry of
    role ["system"] decodes to the empty sequence. *)
Theorem deserialize_drops_other_roles (history : list (gmap string pyval)) :
  Forall encoded_entry history ->
  exists out,
    _deserialize_history history = Ok out
    /\ _deserialize_history (List.filter decoded_role history) = Ok out
    /\ length out = length (List.filter decoded_role history)
    /\ length out <= length history
    /\ (forall e, history = [e] ->
          dict_get e "role" PNone = PStr "system" -> out = []).
Proof.
  intros He.
  assert (H : Forall mapping_content history)
    by (eapply Forall_impl; [exact He | exact encoded_entry_mapping]).
  destruct (deserialize_loop_filter history H) as [out [Hlen Hout]].
  exists out. destruct (Hout []) as [H1 H2].
  repeat split; try done.
  - rewrite Hlen. apply filter_length_le.
  - intros e -> Hrole. unfold decoded_role in Hlen. simpl in Hlen.
    rewrite Hrole in Hlen. simpl in Hlen. by destruct out.
Qed.

Lemma deserialize_drops_other_roles_witness :
  exists out,
    _deserialize_history
      [ {[ "role" := PStr "system";
           "content" := PDict {[ "content" := PStr "be brief" ]} ]};
        {[ "role" := PStr "user";
           "content" := PDict {[ "content" := PStr "hi" ]} ]} ] = Ok out
    /\ length out <= 2.
Proof.
  destruct (deserialize_drops_other_roles
    [ {[ "role" := PStr "system";
         "content" := PDict {[ "content" := PStr "be brief" ]} ]};
      {[ "role" := PStr "user";
         "content" := PDict {[ "content" := PStr "hi" ]} ]} ])
    as [out [H1 [_ [_ [H2 _]]]]].
  - constructor; [vm_compute; split; intros H; [exact I | exact I]|].
    constructor; [vm_compute; split; intros H; [exact I | exact I]|].
    constructor.
  - exists out. split; [exact H1 | exact H2].
Defined.





(** Outside the encoded shape: the decoder reads the nested content of
    every entry before it looks at the role, so an entry whose ["content"]
    is a plain string makes it raise also when the role is one it drops. *)
Example deserialize_system_string_content_raises :
  _deserialize_history
    [ {[ "role" := PStr "system"; "content" := PStr "be brief" ]} ]
  = Raise (Exn AttributeError "'str' object has no attribute 'get'").
Proof. vm_compute. reflexivity. Qed.

(** The metadata of a user record does not survive the round trip. *)
Example roundtrip_user_loses_metadata :
  _deserialize_history
    (_serialize_history
       [Message human (PStr "hi") (PDict {[ "k" := PInt 1 ]})])
  = Ok [Message human (PStr "hi") (PDict ∅)].
Proof. vm_compute. reflexivity. Qed.

(** ** The read-only accessors *)

Section Accessors.

Context {Agent : Type} (C : collaborators Agent).

Lemma find_tool_name tools tool_name t :
  find_tool tools tool_name = Some t -> name t = tool_name.
Proof.
  induction tools as [|t' rest IH]; simpl; [done|].
  destruct (String.eqb (name t') tool_name) eqn:E.
  - intros [= <-]. by apply String.eqb_eq.
  - apply IH.
Qed.

Lemma find_tool_none tools tool_name :
  find_tool tools tool_name = None <->
  Forall (fun t => name t <> tool_name) tools.
Proof.
  induction tools as [|t' rest IH]; simpl.
  - split; [constructor|done].
  - destruct (String.eqb (name t') tool_name) eqn:E.
    + apply String.eqb_eq in E. split; [done|].
      intros H. by inversion H.
    + apply String.eqb_neq in E. rewrite IH. split.
      * by constructor.
      * intros H. by inversion H.
Qed.

(** C7: [call_tool] never raises; it returns the exact text
    ["Error: LangChain agent not initialized"] while the agent handle is
    absent, and ["Error: Tool '<name>' not found"] when the agent exists and
    none of its tools has exactly the requested name. *)
Theorem call_tool_sentinels (self : LangChainCompatibilityAdapter Agent)
    (tool_name : string) (kwargs : gmap string pyval) :
  (exists text, call_tool C self tool_name kwargs = Ok text)
  /\ (agent self = None ->
      call_tool C self tool_name kwargs
      = Ok "Error: LangChain agent not initialized")
  /\ (forall a,
        agent self = Some a ->
        Forall (fun t => name t <> tool_name) (agent_tools C a) ->
        call_tool C self tool_name kwargs
        = Ok ("Error: Tool '" ++ tool_name ++ "' not found")).
Proof.
  unfold call_tool. split; [|split].
  - destruct (agent self) as [a|]; [|eauto].
    destruct (find_tool (agent_tools C a) tool_name) as [tool|];
      simpl; [|eauto].
    destruct (run tool kwargs) as [r|e]; simpl; [|eauto].
    destruct r; simpl; eauto.
    destruct (json_dumps_indent2 C (PDict d)); simpl; eauto.
  - by intros ->.
  - intros a -> Hnone. apply find_tool_none in Hnone. by rewrite Hnone.
Qed.

(** C8 as amended: on a freshly constructed adapter [get_agent_info]
    reports [setup_complete] false, the adapter type, the provider, model
    and endpoint of the configuration with ["unknown"] where a key was not
    supplied, and the project and location identifiers with [None] where
    a key was not supplied. *)
Theorem get_agent_info_fresh (kwargs : gmap string pyval) :
  let info := get_agent_info C (__init__ kwargs) in
  info !! "setup_complete" = Some (PBool false)
  /\ info !! "adapter_type" = Some (PStr "LangChain")
  /\ info !! "llm_provider"
     = Some (default (PStr "unknown") (kwargs !! "llm_provider"))
  /\ info !! "llm_model"
     = Some (default (PStr "unknown") (kwargs !! "llm_model"))
  /\ info !! "mcp_url" = Some (default (PStr "unknown") (kwargs !! "mcp_url"))
  /\ info !! "vertex_project_id"
     = Some (default PNone (kwargs !! "vertex_project_id"))
  /\ info !! "vertex_location"
     = Some (default PNone (kwargs !! "vertex_location")).
Proof.
  simpl. unfold get_agent_info, base_info, dict_get. simpl.
  repeat split; by simplify_map_eq.
Qed.

Lemma dict_update_lookup (d other : gmap string pyval) k :
  dict_update d other !! k
  = match other !! k with
    | Some v => Some v
    | None => d !! k
    end.
Proof.
  unfold dict_update. rewrite lookup_union.
  destruct (other !! k), (d !! k); done.
Qed.

(** C10: when the agent handle exists and reports its info map,
    [get_agent_info] returns the base map updated with it: every key the
    agent reports carries the agent's value, also a key of the base map
    such as [setup_complete] or [adapter_type], and the other keys keep
    their base values. *)
Theorem get_agent_info_merge (self : LangChainCompatibilityAdapter Agent)
    (a : Agent) (langchain_info : gmap string pyval) :
  agent self = Some a ->
  agent_get_agent_info C a = Ok langchain_info ->
  get_agent_info C self = dict_update (base_info self) langchain_info
  /\ (forall k v,
        langchain_info !! k = Some v -> get_agent_info C self !! k = Some v)
  /\ (forall k,
        langchain_info !! k = None ->
        get_agent_info C self !! k = base_info self !! k).
Proof.
  intros Ha Hinfo.
  assert (H : get_agent_info C self
              = dict_update (base_info self) langchain_info).
  { unfold get_agent_info. by rewrite Ha, Hinfo. }
  split; [exact H|]. rewrite H. split.
  - intros k v Hk. by rewrite dict_update_lookup, Hk.
  - intros k Hk. by rewrite dict_update_lookup, Hk.
Qed.

End Accessors.

Lemma call_tool_sentinels_witness :
  call_tool prompt_agent (__init__ ∅) "nonexistent_tool" ∅
  = Ok "Error: LangChain agent not initialized"
  /\ call_tool prompt_agent (Adapter ∅ (Some []) (Some 0))
       "nonexistent_tool" ∅
     = Ok "Error: Tool 'nonexistent_tool' not found".
Proof.
  split.
  - destruct (call_tool_sentinels prompt_agent (__init__ ∅)
                "nonexistent_tool" ∅) as [_ [H _]].
    apply H. reflexivity.
  - destruct (call_tool_sentinels prompt_agent (Adapter ∅ (Some []) (Some 0))
                "nonexistent_tool" ∅) as [_ [_ H]].
    apply (H []); [reflexivity|].
    repeat constructor. discriminate.
Defined.

(** C8 as stated fails: with no configuration at all the project
    identifier is reported as [None], not as ["unknown"]. *)
Lemma get_agent_info_fresh_not_all_unknown :
  ~ (forall k,
       k ∈ ["llm_provider"; "llm_model"; "mcp_url";
            "vertex_project_id"; "vertex_location"] ->
       (∅ : gmap string pyval) !! k = None ->
       get_agent_info prompt_agent (__init__ ∅) !! k
       = Some (PStr "unknown")).
Proof.
  intros H. specialize (H "vertex_project_id").
  assert (Hv : get_agent_info prompt_agent (__init__ ∅) !! "vertex_project_id"
               = Some PNone) by (vm_compute; reflexivity).
  rewrite Hv in H.
  assert (Habs : Some PNone = Some (PStr "unknown")); [|discriminate Habs].
  apply H; [set_solver|reflexivity].
Qed.

Lemma get_agent_info_merge_witness :
  get_agent_info prompt_agent (Adapter ∅ (Some []) (Some 0)) !! "adapter_type"
  = Some (PStr "MalloyLangChainAgent").
Proof.
  destruct (get_agent_info_merge prompt_agent (Adapter ∅ (Some []) (Some 0))
              [] {[ "adapter_type" := PStr "MalloyLangChainAgent" ]})
    as [_ [H _]]; [reflexivity | reflexivity |].
  apply H. reflexivity.
Defined.

(** ** The synchronous bridge *)

Section Bridge.

Context {Agent : Type} (C : collaborators Agent).

Lemma setup_noop (s : state Agent) :
  is_Some (agent (self s)) ->
  _setup_agent_if_needed C s = (Returns tt, 0, s).
Proof.
  intros [a Ha]. unfold _setup_agent_if_needed.
  unfold mbind, M_bind, m_bind, get_self. by rewrite Ha.
Qed.

Lemma call_n_setup_noop (n : nat) (s : state Agent) :
  is_Some (agent (self s)) ->
  call_n (_setup_agent_if_needed C) n s = (Returns tt, 0, s).
Proof.
  intros Ha. induction n as [|n IH]; simpl; [done|].
  unfold mbind, M_bind, m_bind. by rewrite (setup_noop s Ha), IH.
Qed.

(** Unfold the monadic plumbing of a method down to its case analysis. *)
Ltac unfold_method :=
  unfold process_user_question, _run_question_in_new_loop,
    _setup_agent_if_needed, setup_in_thread, construct_agent,
    try_except_RuntimeError, try_except, in_worker_thread,
    run_until_complete, get_running_loop, new_event_loop, set_event_loop,
    close, count_agent, set_agent, set_loop, get_self, raise, lift,
    mbind, M_bind, m_bind, mret, M_ret, m_ret in *;
  simpl in *.

(** A first call that comes back with the agent handle stored, whether it
    returns or raises, has created exactly one event loop and one agent,
    and the [loop] field holds that loop. *)
Lemma setup_first_call (s0 s : state Agent) (o : outcome unit) (t : nat) :
  agent (self s0) = None ->
  _setup_agent_if_needed C s0 = (o, t, s) ->
  o <> Hangs ->
  is_Some (agent (self s)) ->
  loop (self s) = Some (loops_created (env s0))
  /\ loops_created (env s) = S (loops_created (env s0))
  /\ agents_created (env s) = S (agents_created (env s0))
  /\ loops_closed (env s) = loops_closed (env s0).
Proof.
  intros Hnone Hcall Hback Hsome.
  destruct s0 as [[kw ag lp] [run cur nl cl na]].
  simpl in Hnone. subst ag. unfold_method.
  destruct run; simpl in Hcall;
    destruct (create_malloy_agent C kw) as [t1 [a|[[] msg]]|];
    simpl in Hcall;
    try destruct (agent_setup C a) as [t2 [a'|[[] msg]]|];
    simpl in Hcall;
    repeat match type of Hcall with
           | context [Nat.leb ?x ?y] => destruct (Nat.leb x y)
           end;
    simpl in Hcall; injection Hcall as <- <- <-; simpl in *;
    try (by destruct Hsome); done.
Qed.

(** C2: once the agent handle exists, any number of calls of
    [_setup_agent_if_needed] return at once and leave the adapter (its
    [agent] and [loop] fields) and the world unchanged.  So when the call
    that stored the handle has come back, exactly one event loop and one
    agent have been created, and calling the method again and again ends
    in the very state that first call left. *)
Theorem setup_agent_if_needed_idempotent (s : state Agent) (n : nat) :
  is_Some (agent (self s)) ->
  call_n (_setup_agent_if_needed C) n s = (Returns tt, 0, s)
  /\ (forall s0 o t,
        agent (self s0) = None ->
        _setup_agent_if_needed C s0 = (o, t, s) ->
        o <> Hangs ->
        loops_created (env s) = S (loops_created (env s0))
        /\ agents_created (env s) = S (agents_created (env s0)))
  /\ (forall s0 t,
        agent (self s0) = None ->
        _setup_agent_if_needed C s0 = (Returns tt, t, s) ->
        call_n (_setup_agent_if_needed C) (S n) s0 = (Returns tt, t, s)).
Proof.
  intros Ha. split; [by apply call_n_setup_noop|]. split.
  - intros s0 o t Hnone Hcall Hback.
    by destruct (setup_first_call s0 s o t Hnone Hcall Hback Ha)
      as (_ & Hl & Hg & _).
  - intros s0 t Hnone Hcall. simpl. unfold mbind, M_bind, m_bind.
    rewrite Hcall, (call_n_setup_noop n s Ha). by rewrite Nat.add_0_r.
Qed.

(** *** Answering a question *)

Lemma process_user_question_never_raises q h (s : state Agent) e :
  (process_user_question C q h s).1.1 <> Raises e.
Proof.
  unfold process_user_question, try_except.
  match goal with |- context [match ?b with _ => _ end] => destruct b as [[[r|e'|] t] s'] end;
    simpl; discriminate.
Qed.

(** What the worker of [process_user_question] hands back when it is in
    time: the agent's own answer and its conversation. *)
Lemma worker_returns q h (s s' : state Agent) success response hist t :
  in_worker_thread 300 (_run_question_in_new_loop C q h) s
  = (Returns (success, response, hist), t, s') ->
  exists a a' extra,
    agent (self s) = Some a
    /\ agent_process_question C a q
       = Done t (Ok (a', (success, response, extra)))
    /\ agent_get_conversation_history C a' = Ok hist
    /\ t <= 300.
Proof.
  destruct s as [[kw [a|] [l|]] [run cur nl cl na]]; unfold_method;
    try discriminate.
  destruct (agent_process_question C a q)
    as [tq [[a' [[su re] extra]]|e]|] eqn:Hq; simpl; try discriminate.
  - destruct (agent_get_conversation_history C a') as [hs|e] eqn:Hh; simpl.
    + destruct (Nat.leb (tq + 0) 300) eqn:E; [|discriminate].
      intros [= -> -> -> <- <-]. apply Nat.leb_le in E.
      exists a, a', extra. rewrite Nat.add_0_r in *. done.
    + destruct (Nat.leb _ 300); discriminate.
  - destruct (Nat.leb _ 300); discriminate.
Qed.

(** X15: every call of [process_user_question] that comes back returns either
    the agent's answer with the encoded conversation, or the failure
    triple: [False], a message that starts with ["Error in LangChain
    processing: "], and the empty history. *)
Lemma process_user_question_returns q h (s s' : state Agent) o t :
  process_user_question C q h s = (o, t, s') ->
  o = Hangs
  \/ (exists text,
        o = Returns (false, "Error in LangChain processing: " ++ text, []))
  \/ (exists a a' tq success response extra hist,
        agent_process_question C a q
        = Done tq (Ok (a', (success, response, extra)))
        /\ agent_get_conversation_history C a' = Ok hist
        /\ tq <= 300
        /\ o = Returns (success, response, _serialize_history hist)).
Proof.
  unfold process_user_question, try_except.
  unfold mbind at 1, M_bind at 1, m_bind at 1.
  destruct (_setup_agent_if_needed C s) as [[[[]|e|] t1] s1]; simpl.
  - unfold mbind, M_bind, m_bind.
    destruct (in_worker_thread 300 (_run_question_in_new_loop C q h) s1)
      as [[[[[su re] hist]|e|] t2] s2] eqn:W; simpl.
    + intros [= <- _ _]. right. right.
      destruct (worker_returns _ _ _ _ _ _ _ _ W)
        as (a & a' & extra & _ & Hq & Hh & Ht).
      by exists a, a', t2, su, re, extra, hist.
    + intros [= <- _ _]. right. left. by exists (exn_str e).
    + intros [= <- _ _]. by left.
  - intros [= <- _ _]. right. left. by exists (exn_str e).
  - intros [= <- _ _]. by left.
Qed.



(** C6: the [history] argument has no influence: for every question and
    any two history values, absent or not, [process_user_question] gives
    the same outcome (and leaves the same state). *)
Theorem history_argument_ignored (q : string)
    (h1 h2 : option (list (gmap string pyval))) (s : state Agent) :
  process_user_question C q h1 s = process_user_question C q h2 s.
Proof. reflexivity. Qed.

End Bridge.

Lemma setup_agent_if_needed_idempotent_witness :
  call_n (_setup_agent_if_needed prompt_agent) 3 (fresh ∅)
  = (Returns tt, 2,
     State (Adapter ∅ (Some []) (Some 0)) (World false (Some 0) 1 [] 1)).
Proof.
  destruct (setup_agent_if_needed_idempotent prompt_agent
              (State (Adapter ∅ (Some []) (Some 0))
                 (World false (Some 0) 1 [] 1)) 2) as (_ & _ & H).
  - simpl. eexists. reflexivity.
  - apply (H (fresh ∅) 2); reflexivity.
Defined.

(** C1 at an agent whose answer never arrives: the call does not come
    back with the failure triple, it never comes back. *)
Theorem process_user_question_unanswered :
  (process_user_question silent_agent "What is 2+2?" None (fresh ∅)).1.1
  = Hangs.
Proof. vm_compute. reflexivity. Qed.

(** ** More on the history codec *)

(** The accumulator of the decoding loop is only ever extended. *)
Lemma deserialize_loop_acc (history : list (gmap string pyval)) acc :
  deserialize_loop history acc
  = (out ← deserialize_loop history []; Ok (acc ++ out)%list).
Proof.
  revert acc. induction history as [|e rest IH]; intros acc.
  - simpl. by rewrite app_nil_r.
  - simpl.
    destruct (py_get (dict_get e "content" (PDict ∅)) "content" (PStr ""))
      as [c|err]; simpl; [|done].
    destruct (py_get (dict_get e "content" (PDict ∅)) "additional_kwargs"
                (PDict ∅)) as [kw|err]; simpl; [|done].
    repeat case_match;
      try (rewrite (IH (acc ++ _)%list), (IH [_]);
           destruct (deserialize_loop rest []); simpl; [|done];
           by rewrite <- app_assoc).
    apply IH.
Qed.

Lemma deserialize_loop_app (h1 h2 : list (gmap string pyval)) acc :
  deserialize_loop (h1 ++ h2) acc
  = (out ← deserialize_loop h1 acc; deserialize_loop h2 out).
Proof.
  revert acc. induction h1 as [|e rest IH]; intros acc; [done|].
  simpl.
  destruct (py_get (dict_get e "content" (PDict ∅)) "content" (PStr ""))
    as [c|err]; simpl; [|done].
  destruct (py_get (dict_get e "content" (PDict ∅)) "additional_kwargs"
              (PDict ∅)) as [kw|err]; simpl; [|done].
  repeat case_match; apply IH.
Qed.

(** X1: the encoder keeps the length of the conversation, and every entry
    it produces has exactly the keys ["role"] and ["content"], a role among
    ["user"], ["assistant"] and ["system"], and a mapping under
    ["content"]. *)
Theorem serialize_history_wellformed (messages : list BaseMessage) :
  length (_serialize_history messages) = length messages
  /\ Forall (fun e : gmap string pyval =>
               dom e = {[ "role"; "content" ]}
               /\ mapping_content e
               /\ exists r, e !! "role" = Some (PStr r)
                            /\ r ∈ ["user"; "assistant"; "system"])
       (_serialize_history messages).
Proof.
  unfold _serialize_history. rewrite serialize_loop_app, app_nil_l.
  split; [by rewrite length_map|].
  apply Forall_forall. intros e He.
  apply list_elem_of_In, in_map_iff in He. destruct He as [m [<- _]].
  split; [|split].
  - unfold serialize_entry. rewrite dom_insert_L, dom_singleton_L. done.
  - unfold mapping_content. by rewrite serialize_entry_content.
  - exists (role_of m). split.
    + unfold serialize_entry. by simplify_map_eq.
    + unfold role_of. destruct (msg_type m); set_solver.
Qed.

Lemma deserialize_loop_encoded (messages : list BaseMessage) acc :
  deserialize_loop (map serialize_entry messages) acc
  = Ok (acc ++ omap decoded_back messages)%list.
Proof.
  revert acc. induction messages as [|m rest IH]; intros acc.
  - simpl. by rewrite app_nil_r.
  - rewrite map_cons.
    erewrite deserialize_loop_step;
      [|unfold dict_get; by rewrite serialize_entry_content].
    rewrite serialize_entry_role. unfold role_of, decoded_back, dict_get.
    simpl omap. unfold decoded_back.
    destruct (msg_type m); simpl; rewrite IH; simplify_map_eq;
      by rewrite <- ?app_assoc.
Qed.

(** X2: decoding an encoded conversation never fails, whatever the
    records: it gives the user records with their metadata emptied and the
    assistant records as they were, in order, and leaves the other records
    out. *)
Theorem roundtrip_any (messages : list BaseMessage) :
  _deserialize_history (_serialize_history messages)
  = Ok (omap decoded_back messages).
Proof.
  unfold _deserialize_history, _serialize_history.
  rewrite serialize_loop_app, app_nil_l.
  by rewrite deserialize_loop_encoded.
Qed.

Lemma roundtrip_omap (messages : list BaseMessage) :
  _deserialize_history (_serialize_history messages)
  = Ok (omap decoded_back messages).
Proof.
  unfold _deserialize_history, _serialize_history.
  rewrite serialize_loop_app, app_nil_l.
  apply deserialize_loop_encoded.
Qed.

Lemma omap_decoded_back_cons (m : BaseMessage) rest :
  omap decoded_back (m :: rest)
  = match decoded_back m with
    | Some m' => m' :: omap decoded_back rest
    | None => omap decoded_back rest
    end.
Proof. reflexivity. Qed.

Lemma omap_decoded_back_length (messages : list BaseMessage) :
  length (omap decoded_back messages) <= length messages.
Proof.
  induction messages as [|m rest IH]; [done|].
  rewrite omap_decoded_back_cons.
  destruct (decoded_back m); simpl length; lia.
Qed.

Lemma decoded_back_stable (m : BaseMessage) :
  decoded_back m = Some m <-> roundtrip_stable m.
Proof.
  unfold decoded_back, roundtrip_stable, HumanMessage, AIMessage.
  destruct m as [[] c kw]; simpl; split.
  - intros [= <-]. by right.
  - by intros [|[_ ->]].
  - by left.
  - done.
  - done.
  - by intros [|[]].
Qed.

Lemma omap_decoded_back_stable (messages : list BaseMessage) :
  omap decoded_back messages = messages <-> Forall roundtrip_stable messages.
Proof.
  induction messages as [|m rest IH].
  - split; [constructor|done].
  - rewrite omap_decoded_back_cons. split.
    + destruct (decoded_back m) as [m'|] eqn:E.
      * intros [= -> Hrest]. constructor.
        -- by apply decoded_back_stable.
        -- by apply IH.
      * intros Habs. pose proof (omap_decoded_back_length rest) as Hlen.
        rewrite Habs in Hlen. simpl in Hlen. lia.
    + intros H. inversion H as [|? ? Hm Hrest]; subst.
      apply decoded_back_stable in Hm. rewrite Hm.
      f_equal. by apply IH.
Qed.

(** X3: the round trip gives a conversation back unchanged exactly when
    every record is an assistant record or a user record with empty
    metadata. *)
Theorem roundtrip_identity_iff (messages : list BaseMessage) :
  _deserialize_history (_serialize_history messages) = Ok messages
  <-> Forall roundtrip_stable messages.
Proof.
  rewrite roundtrip_omap, <- omap_decoded_back_stable.
  split; [by intros [= ->]|by intros ->].
Qed.

Lemma roundtrip_identity_iff_witness :
  _deserialize_history
    (_serialize_history
       [HumanMessage (PStr "hi");
        AIMessage (PStr "hello") (PDict {[ "tool" := PStr "calc" ]})])
  = Ok [HumanMessage (PStr "hi");
        AIMessage (PStr "hello") (PDict {[ "tool" := PStr "calc" ]})].
Proof.
  apply (proj2 (roundtrip_identity_iff
    [HumanMessage (PStr "hi");
     AIMessage (PStr "hello") (PDict {[ "tool" := PStr "calc" ]})])).
  constructor; [right; split; reflexivity|].
  constructor; [left; reflexivity|].
  constructor.
Defined.

Lemma deserialize_loop_stable (history : list (gmap string pyval)) acc out :
  deserialize_loop history acc = Ok out ->
  Forall roundtrip_stable acc -> Forall roundtrip_stable out.
Proof.
  revert acc. induction history as [|e rest IH]; intros acc; simpl.
  - by intros [= ->].
  - destruct (py_get (dict_get e "content" (PDict ∅)) "content" (PStr ""))
      as [c|err]; simpl; [|done].
    destruct (py_get (dict_get e "content" (PDict ∅)) "additional_kwargs"
                (PDict ∅)) as [kw|err]; simpl; [|done].
    repeat case_match; intros Hloop Hacc; apply (IH _ Hloop); try done;
      apply Forall_app; (split; [done|]); (constructor; [|constructor]).
    + right. by split.
    + by left.
Qed.

(** X4: whatever the decoder returns is a fixed point of the round trip:
    encoding it and decoding it again gives it back. *)
Theorem deserialize_output_stable (history : list (gmap string pyval))
    (out : list BaseMessage) :
  _deserialize_history history = Ok out ->
  _deserialize_history (_serialize_history out) = Ok out.
Proof.
  intros H. rewrite roundtrip_omap. f_equal.
  apply omap_decoded_back_stable.
  by apply (deserialize_loop_stable history [] out H).
Qed.

Lemma deserialize_output_stable_witness :
  _deserialize_history
    (_serialize_history
       [HumanMessage (PStr "hi"); AIMessage (PStr "") (PDict ∅)])
  = Ok [HumanMessage (PStr "hi"); AIMessage (PStr "") (PDict ∅)].
Proof.
  apply (deserialize_output_stable
           [ {[ "role" := PStr "user";
                "content" := PDict {[ "content" := PStr "hi";
                                      "additional_kwargs" :=
                                        PDict {[ "k" := PInt 1 ]} ]} ]};
             {[ "role" := PStr "tool" ]};
             {[ "role" := PStr "assistant" ]} ]).
  vm_compute. reflexivity.
Defined.

Lemma deserialize_loop_bad_entry (history : list (gmap string pyval)) acc :
  Exists (fun e => ~ mapping_content e) history ->
  exists err, deserialize_loop history acc = Raise err
              /\ exn_kind err = AttributeError.
Proof.
  intros H. revert acc.
  induction H as [e rest He|e rest _ IH]; intros acc.
  - apply deserialize_loop_not_mapping. intros d Hd. apply He.
    unfold mapping_content, dict_get in *.
    destruct (e !! "content") as [[]|]; simpl in Hd; done.
  - destruct (dict_get e "content" (PDict ∅)) eqn:E;
      try (simpl; rewrite E; simpl; by eauto).
    rewrite (deserialize_loop_step e d) by done.
    repeat case_match; apply IH.
Qed.

(** X5: decoding is all or nothing: one entry whose ["content"] is there
    but is not a mapping, anywhere in the list, makes the whole call raise
    an [AttributeError]; the records built before it are lost. *)
Theorem deserialize_all_or_nothing (history : list (gmap string pyval)) :
  Exists (fun e => ~ mapping_content e) history ->
  exists err, _deserialize_history history = Raise err
              /\ exn_kind err = AttributeError.
Proof. apply deserialize_loop_bad_entry. Qed.

Lemma deserialize_all_or_nothing_witness :
  exists err,
    _deserialize_history
      [ {[ "role" := PStr "user";
           "content" := PDict {[ "content" := PStr "hi" ]} ]};
        {[ "role" := PStr "assistant"; "content" := PNone ]} ] = Raise err
    /\ exn_kind err = AttributeError.
Proof.
  apply (deserialize_all_or_nothing
           [ {[ "role" := PStr "user";
                "content" := PDict {[ "content" := PStr "hi" ]} ]};
             {[ "role" := PStr "assistant"; "content" := PNone ]} ]).
  apply Exists_cons_tl, Exists_cons_hd. vm_compute. intros H. exact H.
Defined.

(** X6: both directions of the codec work entry by entry: the encoding of
    a concatenation is the concatenation of the encodings, and decoding a
    concatenation decodes the first part, then the second, and
    concatenates the records (it fails when either part fails). *)
Theorem codec_concatenation (m1 m2 : list BaseMessage)
    (h1 h2 : list (gmap string pyval)) :
  _serialize_history (m1 ++ m2)
  = (_serialize_history m1 ++ _serialize_history m2)%list
  /\ _deserialize_history (h1 ++ h2)
     = (o1 ← _deserialize_history h1;
        o2 ← _deserialize_history h2;
        Ok (o1 ++ o2)%list).
Proof.
  split.
  - unfold _serialize_history. rewrite !serialize_loop_app, !app_nil_l.
    apply map_app.
  - unfold _deserialize_history. rewrite deserialize_loop_app.
    destruct (deserialize_loop h1 []) as [o1|err]; simpl; [|done].
    apply deserialize_loop_acc.
Qed.

(** ** Edge behaviour of the lazy initialisation *)

Ltac run_method :=
  unfold process_user_question, _run_question_in_new_loop,
    _setup_agent_if_needed, setup_in_thread, construct_agent,
    try_except_RuntimeError, try_except, in_worker_thread,
    run_until_complete, get_running_loop, new_event_loop, set_event_loop,
    close, count_agent, set_agent, set_loop, get_self, raise, lift,
    mbind, M_bind, m_bind, mret, M_ret, m_ret in *;
  simpl in *.

(** Decide a timeout test of the goal from the arithmetic at hand. *)
Ltac settle_timeout :=
  repeat match goal with
         | |- context [Nat.leb ?x ?y] =>
             first
               [ replace (Nat.leb x y) with true
                   by (symmetry; apply Nat.leb_le; lia)
               | replace (Nat.leb x y) with false
                   by (symmetry; apply Nat.leb_gt; lia) ]
         end;
  simpl.

Section SetupEdges.

Context {Agent : Type} (C : collaborators Agent).

(** X7: when the caller is inside a running loop and the construction or
    the set-up of the agent fails on the worker thread (in time, with an
    exception other than [RuntimeError]), [_setup_agent_if_needed] raises
    that exception, leaves the adapter as it was, and the event loop the
    worker had created has been closed. *)
Theorem setup_worker_failure_closes_loop (s : state Agent) (e : exn)
    (t : nat) :
  running_loop (env s) = true ->
  agent (self s) = None ->
  create_malloy_agent C (agent_kwargs (self s)) = Done t (Raise e)
  \/ (exists a t1 t2,
        create_malloy_agent C (agent_kwargs (self s)) = Done t1 (Ok a)
        /\ agent_setup C a = Done t2 (Raise e) /\ t = t1 + t2) ->
  t <= 60 ->
  exn_kind e <> RuntimeError ->
  exists t' s',
    _setup_agent_if_needed C s = (Raises e, t', s')
    /\ self s' = self s
    /\ loops_created (env s') = S (loops_created (env s))
    /\ loops_closed (env s') = loops_created (env s) :: loops_closed (env s).
Proof.
  destruct s as [[kw ag lp] [run cur nl cl na]]. simpl.
  intros -> -> Hfail Ht Hkind. run_method.
  destruct Hfail as [Hc|(a & t1 & t2 & Hc & Hs & ->)]; rewrite Hc; simpl;
    rewrite ?Hs; simpl; settle_timeout;
    destruct e as [[] msg]; simpl in *; try done; eauto 10.
Qed.

(** X8: when no loop is running and the construction of the agent fails,
    [_setup_agent_if_needed] raises that exception with the agent still
    absent, but the event loop it had created stays in [self.loop], is the
    thread's current loop, and is not closed. *)
Theorem setup_direct_failure_keeps_loop (s : state Agent) (e : exn)
    (t : nat) :
  running_loop (env s) = false ->
  agent (self s) = None ->
  create_malloy_agent C (agent_kwargs (self s)) = Done t (Raise e) ->
  exists t' s',
    _setup_agent_if_needed C s = (Raises e, t', s')
    /\ agent (self s') = None
    /\ loop (self s') = Some (loops_created (env s))
    /\ current_loop (env s') = Some (loops_created (env s))
    /\ loops_created (env s') = S (loops_created (env s))
    /\ loops_closed (env s') = loops_closed (env s).
Proof.
  destruct s as [[kw ag lp] [run cur nl cl na]]. simpl.
  intros -> -> Hc. run_method. rewrite Hc. simpl. eauto 10.
Qed.

(** X9: when no loop is running and the agent is constructed but its
    set-up fails, the exception is raised with the agent already stored:
    from then on [_setup_agent_if_needed] returns at once and never runs
    the set-up again. *)
Theorem setup_direct_failure_sticks (s : state Agent) (a : Agent) (e : exn)
    (t1 t2 : nat) :
  running_loop (env s) = false ->
  agent (self s) = None ->
  create_malloy_agent C (agent_kwargs (self s)) = Done t1 (Ok a) ->
  agent_setup C a = Done t2 (Raise e) ->
  exists t' s',
    _setup_agent_if_needed C s = (Raises e, t', s')
    /\ agent (self s') = Some a
    /\ forall n, call_n (_setup_agent_if_needed C) n s' = (Returns tt, 0, s').
Proof.
  destruct s as [[kw ag lp] [run cur nl cl na]]. simpl.
  intros -> -> Hc Hs.
  assert (H : exists t' s',
            _setup_agent_if_needed C
              (State (Adapter kw None lp) (World false cur nl cl na))
            = (Raises e, t', s') /\ agent (self s') = Some a).
  { run_method. rewrite Hc. simpl. rewrite Hs. simpl. eauto. }
  destruct H as (t' & s' & Hcall & Ha).
  exists t', s'. split; [exact Hcall|]. split; [exact Ha|].
  intros n. apply call_n_setup_noop. rewrite Ha. by eexists.
Qed.

(** X10: when the caller is inside a running loop and the worker fails
    with a [RuntimeError], the handler meant for a caller without a running
    loop takes over: a second event loop is created and stored in
    [self.loop], and the call raises the [RuntimeError] of
    [run_until_complete] in place of the worker's. *)
Theorem setup_runtime_error_replaced (s : state Agent) (e : exn) (t : nat) :
  running_loop (env s) = true ->
  agent (self s) = None ->
  create_malloy_agent C (agent_kwargs (self s)) = Done t (Raise e) ->
  t <= 60 ->
  exn_kind e = RuntimeError ->
  exists t' s',
    _setup_agent_if_needed C s
    = (Raises (Exn RuntimeError
                 "Cannot run the event loop while another loop is running"),
       t', s')
    /\ agent (self s') = None
    /\ loop (self s') = Some (S (loops_created (env s)))
    /\ loops_created (env s') = S (S (loops_created (env s)))
    /\ loops_closed (env s') = loops_created (env s) :: loops_closed (env s).
Proof.
  destruct s as [[kw ag lp] [run cur nl cl na]]. simpl.
  intros -> -> Hc Ht Hkind. run_method. rewrite Hc. simpl.
  settle_timeout. destruct e as [k msg]. simpl in Hkind. subst k. simpl.
  eauto 10.
Qed.

(** X11: when the caller is inside a running loop and the worker finishes
    constructing and setting up the agent only after the bound of 60, the
    call raises [TimeoutError] and leaves the adapter as it was: the agent
    that was built is dropped and its event loop is left open. *)
Theorem setup_worker_timeout (s : state Agent) (a a' : Agent) (t1 t2 : nat) :
  running_loop (env s) = true ->
  agent (self s) = None ->
  create_malloy_agent C (agent_kwargs (self s)) = Done t1 (Ok a) ->
  agent_setup C a = Done t2 (Ok a') ->
  60 < t1 + t2 ->
  exists t' s',
    _setup_agent_if_needed C s = (Raises (Exn TimeoutError ""), t', s')
    /\ self s' = self s
    /\ agents_created (env s') = S (agents_created (env s))
    /\ loops_created (env s') = S (loops_created (env s))
    /\ loops_closed (env s') = loops_closed (env s).
Proof.
  destruct s as [[kw ag lp] [run cur nl cl na]]. simpl.
  intros -> -> Hc Hs Ht. run_method. rewrite Hc. simpl. rewrite Hs. simpl.
  settle_timeout. eauto 10.
Qed.

End SetupEdges.

Lemma setup_worker_failure_closes_loop_witness :
  exists t' s',
    _setup_agent_if_needed
      (scripted_agent (Done 5 (Raise broken)) (Done 1 (Ok tt)) [])
      (State (__init__ ∅) busy_world)
    = (Raises broken, t', s')
    /\ loops_closed (env s') = [0].
Proof.
  destruct (setup_worker_failure_closes_loop
              (scripted_agent (Done 5 (Raise broken)) (Done 1 (Ok tt)) [])
              (State (__init__ ∅) busy_world) broken 5)
    as (t' & s' & H1 & _ & _ & H4).
  - reflexivity.
  - reflexivity.
  - left. reflexivity.
  - lia.
  - discriminate.
  - exists t', s'. split; [exact H1 | exact H4].
Defined.

Lemma setup_direct_failure_keeps_loop_witness :
  exists t' s',
    _setup_agent_if_needed
      (scripted_agent (Done 5 (Raise broken)) (Done 1 (Ok tt)) [])
      (fresh ∅)
    = (Raises broken, t', s')
    /\ loop (self s') = Some 0
    /\ loops_closed (env s') = [].
Proof.
  destruct (setup_direct_failure_keeps_loop
              (scripted_agent (Done 5 (Raise broken)) (Done 1 (Ok tt)) [])
              (fresh ∅) broken 5)
    as (t' & s' & H1 & _ & H3 & _ & _ & H6);
    [reflexivity | reflexivity | reflexivity |].
  exists t', s'. split; [exact H1|]. split; [exact H3 | exact H6].
Defined.

Lemma setup_direct_failure_sticks_witness :
  exists t' s',
    _setup_agent_if_needed
      (scripted_agent (Done 1 (Ok [])) (Done 3 (Raise broken)) [])
      (fresh ∅)
    = (Raises broken, t', s')
    /\ call_n
         (_setup_agent_if_needed
            (scripted_agent (Done 1 (Ok [])) (Done 3 (Raise broken)) []))
         2 s'
       = (Returns tt, 0, s').
Proof.
  destruct (setup_direct_failure_sticks
              (scripted_agent (Done 1 (Ok [])) (Done 3 (Raise broken)) [])
              (fresh ∅) [] broken 1 3)
    as (t' & s' & H1 & _ & H3);
    [reflexivity | reflexivity | reflexivity | reflexivity |].
  exists t', s'. split; [exact H1 | exact (H3 2)].
Defined.

Lemma setup_runtime_error_replaced_witness :
  exists t' s',
    _setup_agent_if_needed
      (scripted_agent (Done 5 (Raise (Exn RuntimeError "no credentials")))
         (Done 1 (Ok tt)) [])
      (State (__init__ ∅) busy_world)
    = (Raises (Exn RuntimeError
                 "Cannot run the event loop while another loop is running"),
       t', s')
    /\ loop (self s') = Some 1.
Proof.
  destruct (setup_runtime_error_replaced
              (scripted_agent
                 (Done 5 (Raise (Exn RuntimeError "no credentials")))
                 (Done 1 (Ok tt)) [])
              (State (__init__ ∅) busy_world)
              (Exn RuntimeError "no credentials") 5)
    as (t' & s' & H1 & _ & H3 & _);
    [reflexivity | reflexivity | reflexivity | lia | reflexivity |].
  exists t', s'. split; [exact H1 | exact H3].
Defined.

Lemma setup_worker_timeout_witness :
  exists t' s',
    _setup_agent_if_needed
      (scripted_agent (Done 40 (Ok [])) (Done 21 (Ok tt)) [])
      (State (__init__ ∅) busy_world)
    = (Raises (Exn TimeoutError ""), t', s')
    /\ self s' = __init__ ∅.
Proof.
  destruct (setup_worker_timeout
              (scripted_agent (Done 40 (Ok [])) (Done 21 (Ok tt)) [])
              (State (__init__ ∅) busy_world) [] [] 40 21)
    as (t' & s' & H1 & H2 & _);
    [reflexivity | reflexivity | reflexivity | reflexivity | lia |].
  exists t', s'. split; [exact H1 | exact H2].
Defined.

(** ** Edge behaviour of the per-question protocol *)

Section QuestionEdges.

Context {Agent : Type} (C : collaborators Agent).



(** X17: a question asked of an initialised adapter never touches the
    event loops: whatever the agent does, the call leaves the world (loops
    created and closed, the caller's running and current loop) and the
    adapter's [loop] and configuration as they were, and the agent handle
    stays in place. *)
Theorem process_user_question_frame (s s' : state Agent) (q : string)
    (h : option (list (gmap string pyval)))
    (o : outcome (bool * string * list (gmap string pyval))) (t : nat) :
  is_Some (agent (self s)) ->
  process_user_question C q h s = (o, t, s') ->
  env s' = env s
  /\ loop (self s') = loop (self s)
  /\ agent_kwargs (self s') = agent_kwargs (self s)
  /\ is_Some (agent (self s')).
Proof.
  destruct s as [[kw ag lp] [run cur nl cl na]]. simpl.
  intros [a ->]. run_method.
  destruct lp as [l|]; simpl;
    [destruct (agent_process_question C a q)
       as [tq [[a' [[su re] x]]|e]|]; simpl;
     [destruct (agent_get_conversation_history C a') as [hs|e]; simpl|..]|];
    repeat match goal with
           | |- context [Nat.leb ?x ?y] => destruct (Nat.leb x y)
           end;
    simpl; intros [= <- <- <-]; simpl; eauto 10.
Qed.

Lemma setup_keeps_config (s : state Agent) :
  agent_kwargs (self (_setup_agent_if_needed C s).2) = agent_kwargs (self s)
  /\ running_loop (env (_setup_agent_if_needed C s).2) = running_loop (env s)
  /\ loops_created (env s)
     <= loops_created (env (_setup_agent_if_needed C s).2).
Proof.
  destruct s as [[kw ag lp] [run cur nl cl na]]. run_method.
  destruct ag as [a0|]; simpl; [repeat split; lia|].
  destruct run; simpl;
    destruct (create_malloy_agent C kw) as [t1 [a|[[] msg]]|]; simpl;
    try destruct (agent_setup C a) as [t2 [a'|[[] msg]]|]; simpl;
    repeat match goal with
           | |- context [Nat.leb ?x ?y] => destruct (Nat.leb x y)
           end;
    simpl; repeat split; lia.
Qed.

Lemma worker_keeps_config (s : state Agent) (q : string)
    (h : option (list (gmap string pyval))) :
  agent_kwargs
    (self (in_worker_thread 300 (_run_question_in_new_loop C q h) s).2)
  = agent_kwargs (self s)
  /\ env (in_worker_thread 300 (_run_question_in_new_loop C q h) s).2
     = env s.
Proof.
  destruct s as [[kw ag lp] [run cur nl cl na]]. run_method.
  destruct ag as [a|], lp as [l|]; simpl; try done.
  destruct (agent_process_question C a q)
    as [tq [[a' [[su re] x]]|e]|]; simpl;
    [destruct (agent_get_conversation_history C a') as [hs|e]; simpl|..];
    repeat match goal with
           | |- context [Nat.leb ?x ?y] => destruct (Nat.leb x y)
           end;
    done.
Qed.

(** X18: no call of [process_user_question], on any adapter, changes the
    stored configuration or the caller's running-loop state, and it never
    lowers the count of event loops created. *)
Theorem process_user_question_keeps_config (s : state Agent) (q : string)
    (h : option (list (gmap string pyval))) :
  agent_kwargs (self (process_user_question C q h s).2)
  = agent_kwargs (self s)
  /\ running_loop (env (process_user_question C q h s).2)
     = running_loop (env s)
  /\ loops_created (env s)
     <= loops_created (env (process_user_question C q h s).2).
Proof.
  destruct (setup_keeps_config s) as (K1 & R1 & L1).
  destruct (process_user_question C q h s) as [[o t] s'] eqn:E.
  simpl. revert E. unfold process_user_question, try_except.
  unfold mbind at 1, M_bind at 1, m_bind at 1.
  destruct (_setup_agent_if_needed C s) as [[[[]|e|] t1] s1];
    simpl in *; try (by intros [= <- <- <-]).
  destruct (worker_keeps_config s1 q h) as (K2 & E2).
  unfold mbind, M_bind, m_bind.
  destruct (in_worker_thread 300 (_run_question_in_new_loop C q h) s1)
    as [[[[[su re] hist]|e|] t2] s2]; simpl in *;
    intros [= <- <- <-]; rewrite ?K2, ?E2; done.
Qed.

(** X19: when the lazy initialisation raises, whatever the reason,
    [process_user_question] returns the failure triple with the text of
    that exception; no question is sent to the agent, and the adapter and
    the world are as the initialisation left them. *)
Theorem process_user_question_setup_failure (s s1 : state Agent)
    (q : string) (h : option (list (gmap string pyval))) (e : exn)
    (t : nat) :
  _setup_agent_if_needed C s = (Raises e, t, s1) ->
  process_user_question C q h s
  = (Returns (false, "Error in LangChain processing: " ++ exn_str e, []),
     t + 0, s1).
Proof.
  intros Hs. unfold process_user_question, try_except.
  unfold mbind at 1, M_bind at 1, m_bind at 1. by rewrite Hs.
Qed.

End QuestionEdges.





Lemma process_user_question_returns_witness :
  let C := echo_agent (fun _ => Done 1 (Raise broken)) (Ok ∅) in
  let o := (process_user_question C "hi" None ready).1.1 in
  o = Hangs
  \/ (exists text,
        o = Returns (false, "Error in LangChain processing: " ++ text, []))
  \/ (exists a a' tq success response extra hist,
        agent_process_question C a "hi"
        = Done tq (Ok (a', (success, response, extra)))
        /\ agent_get_conversation_history C a' = Ok hist
        /\ tq <= 300
        /\ o = Returns (success, response, _serialize_history hist)).
Proof.
  intros C o.
  apply (process_user_question_returns C "hi" None ready
           (process_user_question C "hi" None ready).2 o
           (process_user_question C "hi" None ready).1.2).
  subst o. by destruct (process_user_question C "hi" None ready) as [[? ?] ?].
Defined.

Lemma process_user_question_frame_witness :
  env (process_user_question prompt_agent "hi" None ready).2 = env ready
  /\ loop (self (process_user_question prompt_agent "hi" None ready).2)
     = Some 0.
Proof.
  destruct (process_user_question_frame prompt_agent ready
              (process_user_question prompt_agent "hi" None ready).2
              "hi" None
              (process_user_question prompt_agent "hi" None ready).1.1
              (process_user_question prompt_agent "hi" None ready).1.2)
    as (H1 & H2 & _).
  - simpl. eexists. reflexivity.
  - vm_compute. reflexivity.
  - split; [exact H1 | exact H2].
Defined.

Lemma process_user_question_setup_failure_witness :
  exists t' s',
    process_user_question
      (scripted_agent (Done 5 (Raise broken)) (Done 1 (Ok tt)) [])
      "hi" None (fresh ∅)
    = (Returns
         (false, "Error in LangChain processing: connection refused", []),
       t', s').
Proof.
  do 2 eexists.
  apply (process_user_question_setup_failure
           (scripted_agent (Done 5 (Raise broken)) (Done 1 (Ok tt)) [])
           (fresh ∅)
           (_setup_agent_if_needed
              (scripted_agent (Done 5 (Raise broken)) (Done 1 (Ok tt)) [])
              (fresh ∅)).2
           "hi" None broken 5).
  vm_compute. reflexivity.
Defined.

(** ** More on the accessors *)

Section AccessorEdges.

Context {Agent Client : Type}.
Context (C : collaborators Agent) (T : tool_collaborators Agent Client).

Lemma find_tool_first (pre post : list BaseTool) (tool : BaseTool) :
  Forall (fun t => name t <> name tool) pre ->
  find_tool (pre ++ tool :: post) (name tool) = Some tool.
Proof.
  induction 1 as [|t pre Ht _ IH]; simpl.
  - by rewrite String.eqb_refl.
  - apply String.eqb_neq in Ht. by rewrite Ht.
Qed.

(** X20: [call_tool] runs the first tool of the agent that has the
    requested name, and only that one: a later tool of the same name is
    never run.  The answer is the rendering of the tool's result, or, when
    the tool or the rendering raises, the text ["Error calling tool
    <name>: <message>"]. *)
Theorem call_tool_first_match (self : LangChainCompatibilityAdapter Agent)
    (a : Agent) (pre post : list BaseTool) (tool : BaseTool)
    (kwargs : gmap string pyval) :
  agent self = Some a ->
  agent_tools C a = (pre ++ tool :: post)%list ->
  Forall (fun t => name t <> name tool) pre ->
  call_tool C self (name tool) kwargs
  = Ok match run tool kwargs with
       | Ok (PDict d) =>
           match json_dumps_indent2 C (PDict d) with
           | Ok text => text
           | Raise e => "Error calling tool " ++ name tool ++ ": " ++ exn_str e
           end
       | Ok r => py_str C r
       | Raise e => "Error calling tool " ++ name tool ++ ": " ++ exn_str e
       end.
Proof.
  intros Ha Htools Hpre. unfold call_tool.
  rewrite Ha, Htools, (find_tool_first pre post tool Hpre).
  destruct (run tool kwargs) as [[]|e]; simpl; try done.
  by destruct (json_dumps_indent2 C (PDict d)).
Qed.

(** X21: when the agent exists but raises on [get_agent_info], the
    adapter's report carries the text of the exception under ["error"],
    keeps every other base field, and says [setup_complete] true. *)
Theorem get_agent_info_agent_error
    (self : LangChainCompatibilityAdapter Agent) (a : Agent) (e : exn) :
  agent self = Some a ->
  agent_get_agent_info C a = Raise e ->
  get_agent_info C self !! "error" = Some (PStr (exn_str e))
  /\ get_agent_info C self !! "setup_complete" = Some (PBool true)
  /\ forall k, k <> "error" ->
       get_agent_info C self !! k = base_info self !! k.
Proof.
  intros Ha He. unfold get_agent_info. rewrite Ha, He.
  split; [by simplify_map_eq|]. split.
  - unfold base_info. rewrite Ha. by simplify_map_eq.
  - intros k Hk. by rewrite lookup_insert_ne.
Qed.

(** X22: whatever the state of the adapter and whatever the agent reports
    or raises, the report of [get_agent_info] has all seven base keys. *)
Theorem get_agent_info_base_keys
    (self : LangChainCompatibilityAdapter Agent) :
  Forall (fun k => is_Some (get_agent_info C self !! k))
    ["adapter_type"; "llm_provider"; "llm_model"; "mcp_url";
     "setup_complete"; "vertex_project_id"; "vertex_location"].
Proof.
  assert (Hbase : Forall (fun k => is_Some (base_info self !! k))
            ["adapter_type"; "llm_provider"; "llm_model"; "mcp_url";
             "setup_complete"; "vertex_project_id"; "vertex_location"]).
  { unfold base_info. repeat (constructor; [by simplify_map_eq|]).
    constructor. }
  eapply Forall_impl; [exact Hbase|].
  intros k [v Hv]. unfold get_agent_info.
  destruct (agent self) as [a|]; [|by eexists].
  destruct (agent_get_agent_info C a) as [info|e].
  - rewrite dict_update_lookup. destruct (info !! k); by eexists.
  - destruct (decide (k = "error")) as [->|Hne].
    + rewrite lookup_insert_eq. by eexists.
    + rewrite lookup_insert_ne by done. by eexists.
Qed.

(** *** Tool listing *)

(** X23: the parameters of a tool that declares a schema take
    ["properties"] and ["required"] from it, fall back to the empty
    dictionary and the empty list for the one the schema lacks, and ignore
    every other key of the schema; the type is always ["object"]. *)
Theorem tool_parameters_from_schema (tool : BaseTool)
    (schema : gmap string pyval) :
  tool_args_schema T tool = Some (Ok schema) ->
  exists p,
    tool_parameters T tool = Ok p
    /\ dom p = {[ "type"; "properties"; "required" ]}
    /\ p !! "type" = Some (PStr "object")
    /\ p !! "properties" = Some (default (PDict ∅) (schema !! "properties"))
    /\ p !! "required" = Some (default (PList []) (schema !! "required")).
Proof.
  intros Hs. unfold tool_parameters. rewrite Hs. simpl.
  eexists. split; [reflexivity|].
  destruct (schema !! "properties"), (schema !! "required"); simpl;
    repeat split; try (by simplify_map_eq);
    rewrite ?dom_insert_L, dom_singleton_L; set_solver.
Qed.

Lemma tool_parameters_raises (tool : BaseTool) (e : exn) :
  tool_args_schema T tool = Some (Raise e) ->
  tool_parameters T tool = Raise e.
Proof. intros Hs. unfold tool_parameters. by rewrite Hs. Qed.

Lemma tool_parameters_ok (tool : BaseTool) :
  (forall e, tool_args_schema T tool <> Some (Raise e)) ->
  exists p, tool_parameters T tool = Ok p.
Proof.
  intros Hs. unfold tool_parameters.
  destruct (tool_args_schema T tool) as [[schema|e]|]; simpl; eauto.
  by destruct (Hs e).
Qed.

Lemma tools_loop_describes (tools : list BaseTool) acc out :
  tools_loop T tools acc = Ok out ->
  exists ds, out = (acc ++ ds)%list /\ Forall2 (describes T) tools ds.
Proof.
  revert acc. induction tools as [|tool rest IH]; intros acc; simpl.
  - intros [= <-]. exists []. split; [by rewrite app_nil_r|constructor].
  - destruct (tool_parameters T tool) as [p|e] eqn:Hp; simpl; [|done].
    intros Hloop. destruct (IH _ Hloop) as (ds & -> & Hds).
    eexists (_ :: ds). split; [by rewrite <- app_assoc|].
    constructor; [|exact Hds].
    unfold describes. rewrite Hp.
    split; [by simplify_map_eq|]. split; [by simplify_map_eq|]. split.
    + exists p. split; [reflexivity|]. by simplify_map_eq.
    + rewrite !dom_insert_L, dom_singleton_L. set_solver.
Qed.

Lemma tools_loop_total (tools : list BaseTool) acc :
  Forall (fun t => forall e, tool_args_schema T t <> Some (Raise e)) tools ->
  exists out, tools_loop T tools acc = Ok out.
Proof.
  intros H. revert acc. induction H as [|tool rest Ht _ IH]; intros acc.
  - simpl. eauto.
  - simpl. destruct (tool_parameters_ok tool Ht) as [p ->]. simpl. apply IH.
Qed.

Lemma tools_loop_fails (tools : list BaseTool) acc :
  Exists (fun t => exists e, tool_args_schema T t = Some (Raise e)) tools ->
  exists e, tools_loop T tools acc = Raise e.
Proof.
  intros H. revert acc.
  induction H as [tool rest [e He]|tool rest _ IH]; intros acc; simpl.
  - rewrite (tool_parameters_raises tool e He). simpl. eauto.
  - destruct (tool_parameters T tool); simpl; eauto.
Qed.

(** X24: when no tool's schema raises, [get_available_tools] lists the
    tools of the agent one descriptor per tool, in the agent's order; each
    descriptor has exactly the tool's name, its description and its
    parameters. *)
Theorem get_available_tools_lists_all
    (self : LangChainCompatibilityAdapter Agent) (a : Agent) :
  agent self = Some a ->
  Forall (fun t => forall e, tool_args_schema T t <> Some (Raise e))
    (agent_tools C a) ->
  Forall2 (describes T) (agent_tools C a) (get_available_tools C T self).
Proof.
  intros Ha Hok. unfold get_available_tools. rewrite Ha.
  destruct (tools_loop_total (agent_tools C a) [] Hok) as [out Hout].
  rewrite Hout.
  by destruct (tools_loop_describes _ _ _ Hout) as (ds & -> & Hds).
Qed.

(** X25: the listing is all or nothing: without an agent, or when the
    schema of a single tool raises, [get_available_tools] returns the empty
    list, also for the tools it had already described. *)
Theorem get_available_tools_all_or_nothing
    (self : LangChainCompatibilityAdapter Agent) :
  agent self = None
  \/ (exists a,
        agent self = Some a
        /\ Exists (fun t => exists e, tool_args_schema T t = Some (Raise e))
             (agent_tools C a)) ->
  get_available_tools C T self = [].
Proof.
  unfold get_available_tools. intros [->|(a & -> & Hbad)]; [done|].
  by destruct (tools_loop_fails (agent_tools C a) [] Hbad) as [e ->].
Qed.

Lemma find_tool_member (tools : list BaseTool) (t : BaseTool) :
  t ∈ tools -> exists tool, find_tool tools (name t) = Some tool.
Proof.
  induction 1 as [t rest|t t' rest _ IH]; simpl.
  - rewrite String.eqb_refl. eauto.
  - destruct (String.eqb (name t') (name t)); eauto.
Qed.

(** X26: every name that [get_available_tools] lists can be dispatched:
    the lookup of [call_tool] finds a tool of exactly that name, so the
    answer ["Error: Tool '<name>' not found"] is not produced for it. *)
Theorem listed_tool_is_found (self : LangChainCompatibilityAdapter Agent)
    (d : gmap string pyval) (n : string) :
  d ∈ get_available_tools C T self ->
  d !! "name" = Some (PStr n) ->
  exists a tool,
    agent self = Some a
    /\ find_tool (agent_tools C a) n = Some tool
    /\ name tool = n.
Proof.
  unfold get_available_tools.
  destruct (agent self) as [a|]; [|by intros ?%elem_of_nil].
  destruct (tools_loop T (agent_tools C a) []) as [out|e] eqn:Hout;
    [|by intros ?%elem_of_nil].
  destruct (tools_loop_describes _ _ _ Hout) as (ds & -> & Hds).
  rewrite app_nil_l. intros Hd Hn.
  apply list_elem_of_lookup in Hd as [i Hi].
  destruct (Forall2_lookup_r _ _ _ _ _ Hds Hi) as (t & Ht & Hdesc).
  destruct Hdesc as (Hname & _). rewrite Hname in Hn. injection Hn as <-.
  destruct (find_tool_member (agent_tools C a) t) as [tool Htool].
  { apply list_elem_of_lookup. eauto. }
  exists a, tool. split; [done|]. split; [done|].
  by apply (find_tool_name _ _ _ Htool).
Qed.

(** *** Conversation pass-throughs *)

(** X27: [clear_conversation] and [save_conversation] never raise: when
    the agent's method raises, the exception is swallowed and the adapter
    is as before; in every case they keep the configuration and the event
    loop of the adapter, and without an agent they do nothing.
    [mcp_client] is the agent's own attribute, and [None] without an
    agent. *)
Theorem passthroughs_swallow_failures
    (self : LangChainCompatibilityAdapter Agent) (filepath : string) :
  (exists s1,
     clear_conversation T self = Ok s1
     /\ agent_kwargs s1 = agent_kwargs self /\ loop s1 = loop self
     /\ (is_Some (agent s1) <-> is_Some (agent self)))
  /\ (exists s2,
        save_conversation T self filepath = Ok s2
        /\ agent_kwargs s2 = agent_kwargs self /\ loop s2 = loop self
        /\ (is_Some (agent s2) <-> is_Some (agent self)))
  /\ (agent self = None ->
      clear_conversation T self = Ok self
      /\ save_conversation T self filepath = Ok self
      /\ mcp_client T self = None)
  /\ (forall a e,
        agent self = Some a ->
        agent_clear_conversation T a = Raise e ->
        clear_conversation T self = Ok self)
  /\ (forall a e,
        agent self = Some a ->
        agent_save_conversation T a filepath = Raise e ->
        save_conversation T self filepath = Ok self)
  /\ (forall a,
        agent self = Some a -> mcp_client T self = agent_mcp_client T a).
Proof.
  unfold clear_conversation, save_conversation, mcp_client.
  destruct self as [kw [a|] lp]; simpl.
  - split; [|split; [|split; [|split; [|split]]]].
    + destruct (agent_clear_conversation T a); simpl;
        eexists; (split; [reflexivity|]); simpl; by eauto.
    + destruct (agent_save_conversation T a filepath); simpl;
        eexists; (split; [reflexivity|]); simpl; by eauto.
    + done.
    + by intros a0 e [= <-] ->.
    + by intros a0 e [= <-] ->.
    + by intros a0 [= <-].
  - split; [|split; [|split; [|split; [|split]]]]; try done;
      eexists; (split; [reflexivity|]); done.
Qed.

End AccessorEdges.

Lemma call_tool_first_match_witness :
  call_tool
    (scripted_agent (Done 1 (Ok [])) (Done 1 (Ok tt))
       [failing_tool; ping_tool; pong_tool])
    (self ready) "ping" ∅
  = Ok "pong".
Proof.
  apply (call_tool_first_match
           (scripted_agent (Done 1 (Ok [])) (Done 1 (Ok tt))
              [failing_tool; ping_tool; pong_tool])
           (self ready) [] [failing_tool] [pong_tool] ping_tool ∅).
  - reflexivity.
  - reflexivity.
  - constructor; [discriminate | constructor].
Defined.

Lemma get_agent_info_agent_error_witness :
  get_agent_info (echo_agent (fun q => Done 2 (Ok q)) (Raise broken))
    (self ready) !! "error"
  = Some (PStr "connection refused").
Proof.
  destruct (get_agent_info_agent_error
              (echo_agent (fun q => Done 2 (Ok q)) (Raise broken))
              (self ready) [] broken) as [H _];
    [reflexivity | reflexivity | exact H].
Defined.

Lemma tool_parameters_from_schema_witness :
  exists p,
    tool_parameters sample_tools ping_tool = Ok p
    /\ p !! "required" = Some (PList [PStr "host"]).
Proof.
  destruct (tool_parameters_from_schema sample_tools ping_tool
              {[ "properties" := PDict {[ "host" := PStr "string" ]};
                 "required" := PList [PStr "host"];
                 "title" := PStr "PingArgs" ]})
    as (p & H1 & _ & _ & _ & H5); [reflexivity|].
  exists p. split; [exact H1 | exact H5].
Defined.

Lemma get_available_tools_lists_all_witness :
  Forall2 (describes sample_tools) [ping_tool; pong_tool]
    (get_available_tools
       (scripted_agent (Done 1 (Ok [])) (Done 1 (Ok tt))
          [ping_tool; pong_tool])
       sample_tools (self ready)).
Proof.
  apply (get_available_tools_lists_all
           (scripted_agent (Done 1 (Ok [])) (Done 1 (Ok tt))
              [ping_tool; pong_tool])
           sample_tools (self ready) []).
  - reflexivity.
  - constructor; [intros e; discriminate|].
    constructor; [intros e; discriminate|]. constructor.
Defined.

Lemma get_available_tools_all_or_nothing_witness :
  get_available_tools
    (scripted_agent (Done 1 (Ok [])) (Done 1 (Ok tt))
       [ping_tool; failing_tool])
    sample_tools (self ready)
  = [].
Proof.
  apply (get_available_tools_all_or_nothing
           (scripted_agent (Done 1 (Ok [])) (Done 1 (Ok tt))
              [ping_tool; failing_tool])
           sample_tools (self ready)).
  right. exists []. split; [reflexivity|].
  apply Exists_cons_tl, Exists_cons_hd. exists broken. reflexivity.
Defined.

Lemma listed_tool_is_found_witness :
  exists a tool,
    agent (self ready) = Some a
    /\ find_tool
         (agent_tools
            (scripted_agent (Done 1 (Ok [])) (Done 1 (Ok tt))
               [ping_tool; pong_tool]) a) "ping"
       = Some tool
    /\ name tool = "ping".
Proof.
  apply (listed_tool_is_found
           (scripted_agent (Done 1 (Ok [])) (Done 1 (Ok tt))
              [ping_tool; pong_tool])
           sample_tools (self ready)
           (default ∅
              (get_available_tools
                 (scripted_agent (Done 1 (Ok [])) (Done 1 (Ok tt))
                    [ping_tool; pong_tool])
                 sample_tools (self ready) !! 0))
           "ping").
  - apply list_elem_of_lookup. exists 0. vm_compute. reflexivity.
  - vm_compute. reflexivity.
Defined.

Lemma passthroughs_swallow_failures_witness :
  exists s2,
    save_conversation sample_tools (self ready) "/tmp/chat.json" = Ok s2
    /\ loop s2 = Some 0.
Proof.
  destruct (passthroughs_swallow_failures sample_tools (self ready)
              "/tmp/chat.json") as (_ & (s2 & H1 & _ & H3 & _) & _).
  exists s2. split; [exact H1 | exact H3].
Defined.
